(** * PDF_RAG_Analyser: a shallow embedding of the ingestion and query glue

    The development follows the layout of the repository:

    - [Text]: the Python [str] operations the sources use
      ([lower], [strip], [split], [join], [replace], slicing);
    - [Re]: the fragment of Python's [re] needed by the three section
      patterns of [src/tools/pdf_scraper.py], as a backtracking matcher;
    - [Py]: exceptions and the state-and-exception monad in which the
      effectful functions are written;
    - [PdfScraper], [WebCrawler], [Utils], [VectorStore], [RagPipeline],
      [StreamlitApp]: one module per source file;
    - [Loader] ([load_processed_data] of [src/utils.py]) and [Evaluation]
      ([run_rag_query] and [run_evaluation_suite] of
      [src/rag_pipeline.py]).

    Conventions.  A Python [str] is a Rocq [string]; its characters are the
    code points U+0000..U+00FF.  A [dict] with string keys is a
    [gmap string _]; every record the acquirers build has string values, so
    document records are [gmap string string] and [d.get(k)] is [d !! k].
    Calls into third-party libraries (pdfplumber, requests, BeautifulSoup,
    Chroma, the embedding and language models) are answered by an
    environment record: what the library returns, or the exception it
    raises.  Console output ([print]) is not modelled. *)

From Stdlib Require Import String Ascii List Bool Arith Lia.
From stdpp Require Import base option list gmap strings fin_maps.

Local Open Scope string_scope.
Local Open Scope list_scope.

(** ** Python [str] operations *)

Module Text.

Definition chars (s : string) : list ascii := list_ascii_of_string s.
Definition of_chars (l : list ascii) : string := string_of_list_ascii l.

Definition code (c : ascii) : nat := nat_of_ascii c.

Definition between (lo hi n : nat) : bool := ((lo <=? n) && (n <=? hi))%nat.

(** [str.isspace] on one character: TAB..CR, FS..US, SPACE, NEL, NBSP. *)
Definition isspace (c : ascii) : bool :=
  between 9 13 (code c) || between 28 32 (code c)
  || (code c =? 133)%nat || (code c =? 160)%nat.

(** Uppercase letters (category Lu) among U+0000..U+00FF: A-Z,
    A-grave..O-diaeresis, O-stroke..Thorn. *)
Definition isupper (c : ascii) : bool :=
  between 65 90 (code c) || between 192 214 (code c)
  || between 216 222 (code c).

Definition lower_char (c : ascii) : ascii :=
  if isupper c then ascii_of_nat (code c + 32) else c.

(** [s.lower()], on the strings of this development: their characters
    are the code points U+0000..U+00FF, where the lowercase form of an
    uppercase letter lies 32 places on.  Beyond U+00FF Python's [lower]
    has letters it leaves as they are although [isupper] holds of them
    (U+211D, U+03D2), so of [lower] the properties below state only what
    holds of Python's on every string: that it changes nothing when
    applied again, and that none of A to Z is left. *)
Definition lower (s : string) : string :=
  of_chars (map lower_char (chars s)).

Fixpoint lstrip_chars (l : list ascii) : list ascii :=
  match l with
  | c :: l' => if isspace c then lstrip_chars l' else l
  | [] => []
  end.

Definition strip_chars (l : list ascii) : list ascii :=
  rev (lstrip_chars (rev (lstrip_chars l))).

(** [s.strip()] *)
Definition strip (s : string) : string := of_chars (strip_chars (chars s)).

(** The word being read is kept reversed in [cur]. *)
Fixpoint split_go (cur : list ascii) (l : list ascii) : list (list ascii) :=
  match l with
  | [] => match cur with [] => [] | _ => [rev cur] end
  | c :: l' =>
      if isspace c
      then match cur with
           | [] => split_go [] l'
           | _ => rev cur :: split_go [] l'
           end
      else split_go (c :: cur) l'
  end.

(** [s.split()]: the maximal runs of non-whitespace characters. *)
Definition split (s : string) : list string :=
  map of_chars (split_go [] (chars s)).

(** [sep.join(parts)] *)
Fixpoint join (sep : string) (parts : list string) : string :=
  match parts with
  | [] => ""
  | [p] => p
  | p :: rest => p ++ sep ++ join sep rest
  end.

(** [" ".join(s.split())] *)
Definition normalize_ws (s : string) : string := join " " (split s).

Fixpoint first_line_chars (l : list ascii) : list ascii :=
  match l with
  | [] => []
  | c :: l' => if (code c =? 10)%nat then [] else c :: first_line_chars l'
  end.

(** [s.split('\n')[0]] *)
Definition first_line (s : string) : string :=
  of_chars (first_line_chars (chars s)).

(** [s[i:j]] for [0 <= i], [0 <= j] *)
Definition slice (s : string) (i j : nat) : string :=
  of_chars (take (j - i) (drop i (chars s))).

(** [s[:n]] *)
Definition prefix (n : nat) (s : string) : string := slice s 0 n.

Fixpoint starts_with (p l : list ascii) : bool :=
  match p, l with
  | [], _ => true
  | a :: p', b :: l' => if ascii_dec a b then starts_with p' l' else false
  | _ :: _, [] => false
  end.

(** [skip] counts the characters of a matched occurrence still to drop. *)
Fixpoint replace_go (old new : list ascii) (skip : nat) (l : list ascii)
  : list ascii :=
  match l with
  | [] => []
  | c :: l' =>
      match skip with
      | S n => replace_go old new n l'
      | O =>
          if starts_with old l
          then new ++ replace_go old new (length old - 1) l'
          else c :: replace_go old new 0 l'
      end
  end.

(** [s.replace(old, new)] for a non-empty [old] *)
Definition replace (old new s : string) : string :=
  of_chars (replace_go (chars old) (chars new) 0 (chars s)).

(** The part after the last ["/"]: [os.path.basename]. *)
Fixpoint basename_go (cur : list ascii) (l : list ascii) : list ascii :=
  match l with
  | [] => rev cur
  | c :: l' => if (code c =? 47)%nat then basename_go [] l'
               else basename_go (c :: cur) l'
  end.

Definition basename (path : string) : string :=
  of_chars (basename_go [] (chars path)).

(** [os.path.join(dir, name)] on POSIX (two components, [dir] not empty
    and not ending in ["/"]). *)
Definition path_join (dir name : string) : string :=
  match name with
  | String "/" _ => name
  | _ => dir ++ "/" ++ name
  end.

(** ["\n"] *)
Definition nl : string := String (ascii_of_nat 10) "".

(** Python truthiness of a [str]. *)
Definition nonempty (s : string) : bool :=
  match s with "" => false | _ => true end.

(** Every character of [s] satisfies [P]. *)
Definition every (P : ascii -> Prop) (s : string) : Prop :=
  Forall P (chars s).

(** [s.lower() == s]: [s] is in lowercase form. *)
Definition lowered (s : string) : Prop := lower s = s.

(** None of the letters A to Z occurs in [s]. *)
Definition no_capital (s : string) : Prop :=
  every (fun c => between 65 90 (code c) = false) s.

End Text.

(** ** The fragment of Python's [re] used by the section patterns

    [re] is a backtracking matcher: alternatives are tried left to right, a
    greedy repetition tries the longest run first, a lazy one the shortest,
    and [search] tries the start positions from left to right.  The three
    patterns are compiled with [re.I | re.M | re.S]; they only repeat single
    characters, and they have one capturing group.

    The subject is a string of this development, so its characters are
    the code points U+0000..U+00FF.  There a letter of the pattern
    matches its two cases and nothing else; on other text [re.I] also
    lets [s] match U+017F and [k] match U+212A, which is outside what is
    modelled here. *)

Module Re.
Import Text.

(** One character of the pattern. *)
Inductive charset : Type :=
| Lit (c : ascii)          (* a literal, compared case-insensitively *)
| Letter                   (* [[A-Z]] or [[a-z]] under [re.I] *)
| Digit (lo hi : nat)      (* a digit range such as [[2-9]] *)
| Space                    (* [\s] *)
| LetterOrSpace            (* [[A-Z\s]] under [re.I] *)
| Any.                     (* [.] under [re.S] *)

Inductive regex : Type :=
| Eps
| Chr (p : charset)
| Cat (r1 r2 : regex)
| Alt (r1 r2 : regex)
| Star (p : charset)       (* [p*], greedy *)
| Plus (p : charset)       (* [p+], greedy *)
| LazyStar (p : charset)   (* [p*?] *)
| Bol                      (* [^] under [re.M] *)
| Group (r : regex).       (* the capturing group, number 1 *)

Definition is_letter (c : ascii) : bool :=
  between 97 122 (code (lower_char c)).

(** Whether the character [c] of the subject, a code point up to U+00FF,
    is matched by one character of the pattern under [re.I]. *)
Definition accepts (p : charset) (c : ascii) : bool :=
  match p with
  | Lit l => if ascii_dec (lower_char c) (lower_char l) then true else false
  | Letter => is_letter c
  | Digit lo hi => between (48 + lo) (48 + hi) (code c)
  | Space => isspace c
  | LetterOrSpace => is_letter c || isspace c
  | Any => true
  end.

Definition is_newline (c : ascii) : bool := (code c =? 10)%nat.

(** The group's span [(start, end)], once it has been closed. *)
Definition capture : Type := option (nat * nat).

(** A matcher reads from a cursor: whether the cursor is at the start of
    a line, its offset, the characters that remain, and the capture. *)
Definition matcher : Type :=
  bool -> nat -> list ascii -> capture -> option capture.

Fixpoint star_greedy (p : charset) (k : matcher)
    (bol : bool) (pos : nat) (rest : list ascii) (g : capture)
  : option capture :=
  match rest with
  | c :: rest' =>
      if accepts p c
      then match star_greedy p k (is_newline c) (S pos) rest' g with
           | Some r => Some r
           | None => k bol pos rest g
           end
      else k bol pos rest g
  | [] => k bol pos rest g
  end.

Fixpoint star_lazy (p : charset) (k : matcher)
    (bol : bool) (pos : nat) (rest : list ascii) (g : capture)
  : option capture :=
  match k bol pos rest g with
  | Some r => Some r
  | None =>
      match rest with
      | c :: rest' =>
          if accepts p c
          then star_lazy p k (is_newline c) (S pos) rest' g
          else None
      | [] => None
      end
  end.

Definition one (p : charset) (k : matcher) : matcher :=
  fun bol pos rest g =>
    match rest with
    | c :: rest' =>
        if accepts p c then k (is_newline c) (S pos) rest' g else None
    | [] => None
    end.

(** [run r k]: match [r] at the cursor, then continue with [k]; on
    failure of [k] the next way of matching [r] is tried. *)
Fixpoint run (r : regex) (k : matcher) : matcher :=
  match r with
  | Eps => k
  | Chr p => one p k
  | Cat r1 r2 => run r1 (run r2 k)
  | Alt r1 r2 =>
      fun bol pos rest g =>
        match run r1 k bol pos rest g with
        | Some res => Some res
        | None => run r2 k bol pos rest g
        end
  | Star p => star_greedy p k
  | Plus p => one p (star_greedy p k)
  | LazyStar p => star_lazy p k
  | Bol => fun bol pos rest g => if bol then k bol pos rest g else None
  | Group r1 =>
      fun bol pos rest g =>
        run r1 (fun bol' pos' rest' _ => k bol' pos' rest' (Some (pos, pos')))
            bol pos rest g
  end.

Definition accept : matcher := fun _ _ _ g => Some g.

Fixpoint search_from (r : regex) (bol : bool) (pos : nat)
    (rest : list ascii) : option capture :=
  match run r accept bol pos rest None with
  | Some g => Some g
  | None =>
      match rest with
      | c :: rest' => search_from r (is_newline c) (S pos) rest'
      | [] => None
      end
  end.

(** A match object, reduced to what [safe_search] reads: the subject
    string and the span of group 1. *)
Record Match : Type := { subject : string; span1 : nat * nat }.

(** [regex.search(text)] *)
Definition search (r : regex) (text : string) : option Match :=
  match search_from r true 0 (chars text) with
  | Some (Some sp) => Some {| subject := text; span1 := sp |}
  | _ => None
  end.

(** [match.group(1)] *)
Definition group1 (m : Match) : string :=
  slice (subject m) (fst (span1 m)) (snd (span1 m)).

(** A literal word, character by character. *)
Fixpoint word_chars (l : list ascii) : regex :=
  match l with
  | [] => Eps
  | c :: l' => Cat (Chr (Lit c)) (word_chars l')
  end.

Definition word (s : string) : regex := word_chars (chars s).

Fixpoint seq (rs : list regex) : regex :=
  match rs with
  | [] => Eps
  | r :: rs' => Cat r (seq rs')
  end.

Fixpoint alt (r : regex) (rs : list regex) : regex :=
  match rs with
  | [] => r
  | r' :: rs' => Alt r (alt r' rs')
  end.

End Re.

(** ** Exceptions, and the monad of the effectful functions *)

Module Py.

(** The exception classes the handlers of the sources tell apart. *)
Inductive exn : Type :=
| FileNotFoundError (msg : string)
| IndexError (msg : string)
| RequestException (msg : string)  (* requests.exceptions.RequestException
                                      and its subclasses (HTTPError, ...) *)
| OtherException (msg : string).   (* any other subclass of Exception *)

(** [str(e)] *)
Definition str (e : exn) : string :=
  match e with
  | FileNotFoundError m | IndexError m | RequestException m
  | OtherException m => m
  end.

Definition is_request_exception (e : exn) : bool :=
  match e with RequestException _ => true | _ => false end.

Inductive outcome (A : Type) : Type :=
| Ok (a : A)
| Raise (e : exn).
Arguments Ok {A} a.
Arguments Raise {A} e.

(** A computation over a state [S]: it returns or raises, and in both
    cases leaves a state behind (what was written stays written). *)
Definition M (S A : Type) : Type := S -> outcome A * S.

Definition ret {S A} (a : A) : M S A := fun s => (Ok a, s).

Definition bind {S A B} (c : M S A) (k : A -> M S B) : M S B :=
  fun s =>
    match c s with
    | (Ok a, s') => k a s'
    | (Raise e, s') => (Raise e, s')
    end.

Definition raise {S A} (e : exn) : M S A := fun s => (Raise e, s).

(** [try: body  except <classes> as e: handler]; an exception outside
    [classes] propagates. *)
Definition try_except {S A} (body : M S A) (classes : exn -> bool)
    (handler : exn -> M S A) : M S A :=
  fun s =>
    match body s with
    | (Ok a, s') => (Ok a, s')
    | (Raise e, s') => if classes e then handler e s' else (Raise e, s')
    end.

(** [except Exception] *)
Definition any_exception (e : exn) : bool := true.

Definition get {S} : M S S := fun s => (Ok s, s).
Definition modify {S} (f : S -> S) : M S unit := fun s => (Ok tt, f s).

(** The result of a library call, as the environment answers it. *)
Definition call {S A} (r : outcome A) : M S A := fun s => (r, s).

(** A call that returns nothing, or raises. *)
Definition check {S} (err : option exn) : M S unit :=
  match err with
  | None => ret tt
  | Some e => raise e
  end.

Fixpoint for_each {S A B} (f : A -> M S B) (l : list A) : M S (list B) :=
  match l with
  | [] => ret []
  | x :: l' => bind (f x) (fun y => bind (for_each f l') (fun ys => ret (y :: ys)))
  end.

Module Notations.
Notation "'let*' x ':=' c 'in' k" := (bind c (fun x => k))
  (at level 10, x pattern, c at level 100, k at level 200).
End Notations.

End Py.

(** ** Files written by the acquirers *)

Module Files.

Inductive content : Type :=
| Markup (text : string)                 (* [f.write(r.text)] *)
| Json (record : gmap string string).    (* [json.dump(record, f)] *)

(** The writes performed, oldest first: path and what was written. *)
Definition log : Type := list (string * content).

End Files.

(** ** [src/tools/pdf_scraper.py] *)

Module PdfScraper.
Import Text Re Py Py.Notations.

Definition PROCESSED_DATA_DIR : string := "data/papers/processed".

Definition sp : regex := Star Space.

(** [abstract\s*(.*?)(?:^\s*1\s*introduction|^introduction|
    ^\s*[A-Z][a-z]+[A-Z][a-z]+|^keywords|^\s*i\s*introduction)] *)
Definition ABSTRACT_REGEX : regex :=
  seq [ word "abstract"; sp; Group (LazyStar Any);
        alt (seq [Bol; sp; word "1"; sp; word "introduction"])
            [ seq [Bol; word "introduction"];
              seq [Bol; sp; Chr Letter; Plus Letter; Chr Letter; Plus Letter];
              seq [Bol; word "keywords"];
              seq [Bol; sp; word "i"; sp; word "introduction"] ] ].

(** [(?:^\s*1\s*introduction|^introduction)(.*?)
    (?:^\s*[2-9]\s*[A-Z\s]+|^\s*[a-z]\s*\.)] *)
Definition INTRO_REGEX : regex :=
  seq [ alt (seq [Bol; sp; word "1"; sp; word "introduction"])
            [ seq [Bol; word "introduction"] ];
        Group (LazyStar Any);
        alt (seq [Bol; sp; Chr (Digit 2 9); sp; Plus LetterOrSpace])
            [ seq [Bol; sp; Chr Letter; sp; word "."] ] ].

(** [(?:^conclusion|^conclusions)(.*?)
    (?:^\s*acknowledgements|^references|^\s*appendix)] *)
Definition CONCLUSION_REGEX : regex :=
  seq [ alt (seq [Bol; word "conclusion"]) [ seq [Bol; word "conclusions"] ];
        Group (LazyStar Any);
        alt (seq [Bol; sp; word "acknowledgements"])
            [ seq [Bol; word "references"];
              seq [Bol; sp; word "appendix"] ] ].

(** The helper of [extract_pdf_sections]: group 1 of the first match,
    with its whitespace normalised, or [default]. *)
Definition safe_search (re : regex) (text : string) (default : string)
  : string :=
  match search re text with
  | Some m => join " " (split (strip (group1 m)))
  | None => default
  end.

(** What the file system and pdfplumber answer. *)
Record Env : Type := {
  (** [os.path.exists(path)] *)
  path_exists : string -> bool;
  (** [pdfplumber.open(path)]: the pages, each with the result of its
      [extract_text()] ([None], a string, or an exception) *)
  pdf_open : string -> outcome (list (outcome (option string)));
  (** the exception [open(path, "w")] raises, if it does *)
  open_error : string -> option exn
}.

(** The local dictionary [metadata] is mutated inside the [try] block and
    read by the handler, so it is part of the state, beside the files. *)
Record State : Type := {
  metadata : gmap string string;
  files : Files.log
}.

Definition set_item (k v : string) : M State unit :=
  modify (fun s => {| metadata := <[k := v]> (metadata s); files := files s |}).

Definition get_item (k : string) : M State string :=
  let* s := get in ret (default "" (metadata s !! k)).

Definition write_file (env : Env) (path : string) (c : Files.content)
  : M State unit :=
  let* _ := check (open_error env path) in
  modify (fun s => {| metadata := metadata s; files := files s ++ [(path, c)] |}).

Definition the_metadata : M State (gmap string string) :=
  let* s := get in ret (metadata s).

(** [full_text_list[0]] *)
Definition first_item (l : list string) : M State string :=
  match l with
  | x :: _ => ret x
  | [] => raise (IndexError "list index out of range")
  end.

Definition initial_metadata (path : string) : gmap string string :=
  <["path" := path]>
  (<["title" := basename path]>
  (<["abstract" := ""]>
  (<["introduction" := ""]>
  (<["conclusion" := ""]>
  (<["full_text" := ""]>
  (<["source" := "pdf_paper"]> ∅)))))).

Definition doc_id_of (path : string) : string :=
  lower (replace " " "_" (replace ".pdf" "" (basename path))).

Definition output_path (path : string) : string :=
  path_join PROCESSED_DATA_DIR (doc_id_of path ++ "_processed.json").

(** The body of the [try] block. *)
Definition process (env : Env) (path : string)
  : M State (gmap string string) :=
  let* pages := call (pdf_open env path) in
  let* full_text_list :=
    (* [page.extract_text() or ""] *)
    for_each (fun page => let* t := call page in ret (default "" t)) pages in
  let full_text := join nl full_text_list in
  let normalized_text := lower full_text in
  let* first_page_text := first_item full_text_list in
  let* _ := set_item "title" (strip (first_line first_page_text)) in
  let* _ := set_item "abstract" (safe_search ABSTRACT_REGEX normalized_text "") in
  let* _ := set_item "introduction" (safe_search INTRO_REGEX normalized_text "") in
  let* _ := set_item "conclusion" (safe_search CONCLUSION_REGEX normalized_text "") in
  let* abstract := get_item "abstract" in
  let* _ :=
    (if nonempty abstract then ret tt
     else set_item "abstract" (join " " (take 150 (split full_text)))) in
  let* _ := set_item "full_text" (join " " (split full_text)) in
  let* m := the_metadata in
  let* _ := write_file env (output_path path)
               (Files.Json (filter (fun kv => kv.1 <> "full_text") m)) in
  the_metadata.

Definition extract_pdf_sections_body (env : Env) (path : string)
  : M State (gmap string string) :=
  if negb (path_exists env path)
  then
    let* _ := set_item "error" "File not found." in
    the_metadata
  else
    try_except (process env path) any_exception
      (fun e =>
         let* _ := set_item "error" ("Error processing PDF: " ++ str e) in
         the_metadata).

(** [extract_pdf_sections(path)], run on the files written so far: the
    record returned (or the exception raised) and the files afterwards. *)
Definition extract_pdf_sections (env : Env) (path : string)
    (fs : Files.log) : outcome (gmap string string) * Files.log :=
  let '(r, s) :=
    extract_pdf_sections_body env path
      {| metadata := initial_metadata path; files := fs |} in
  (r, files s).

(** The abstract the pattern finds in the lowercased text, and the one
    taken from the first 150 words of the text as extracted. *)
Definition found_abstract (full_text : string) : string :=
  safe_search ABSTRACT_REGEX (lower full_text) "".

Definition fallback_abstract (full_text : string) : string :=
  join " " (take 150 (split full_text)).

(** The dictionary as the [try] block leaves it before the write, for a
    first page [first_page] and a whole text [full_text]. *)
Definition populated (path first_page full_text : string)
  : gmap string string :=
  let m :=
    <["conclusion" := safe_search CONCLUSION_REGEX (lower full_text) ""]>
    (<["introduction" := safe_search INTRO_REGEX (lower full_text) ""]>
    (<["abstract" := found_abstract full_text]>
    (<["title" := strip (first_line first_page)]>
    (initial_metadata path)))) in
  <["full_text" := join " " (split full_text)]>
  (if nonempty (found_abstract full_text) then m
   else <["abstract" := fallback_abstract full_text]> m).

(** The PDF at [path] cannot be parsed: pdfplumber refuses it, a page
    fails to give its text, or there is no page to read. *)
Definition unparseable (env : Env) (path : string) : Prop :=
  (exists e, pdf_open env path = Raise e) \/
  (exists pages, pdf_open env path = Ok pages /\
     (pages = [] \/ exists e, In (Raise e) pages)).

(** The fields every record starts with. *)
Definition carries_defaults (path : string) (r : gmap string string)
  : Prop :=
  r !! "path" = Some path /\
  r !! "title" = Some (basename path) /\
  r !! "abstract" = Some "" /\
  r !! "introduction" = Some "" /\
  r !! "conclusion" = Some "" /\
  r !! "full_text" = Some "" /\
  r !! "source" = Some "pdf_paper".

End PdfScraper.

(** ** [src/tools/web_crawler.py] *)

Module WebCrawler.
Import Text Py Py.Notations.

Definition RAW_DATA_DIR : string := "data/raw_web".
Definition USER_AGENT : string := "rag-bot/1.0 (Academic Project)".

(** A [requests.Response], reduced to what the crawler reads. *)
Record Response : Type := {
  (** [r.text] *)
  text : string;
  (** the message of the [HTTPError] that [r.raise_for_status()] raises,
      if it raises *)
  http_error : option string
}.

(** What the crawler reads of the parsed page once the script, style, nav,
    footer, header, aside and form elements have been decomposed.  An
    element is given by its text nodes. *)
Record Soup : Type := {
  (** [soup.title.string], when [soup.title] exists and has one *)
  title_string : option string;
  (** [soup.find_all(['p', 'li', 'h1', 'h2', 'h3', 'blockquote'])] *)
  text_elements : list (list string);
  (** [soup.body], when it exists *)
  body : option (list string)
}.

Record Env : Type := {
  (** [requests.get(url, timeout=timeout, headers={"User-Agent": agent})] *)
  requests_get : string -> nat -> string -> outcome Response;
  (** [BeautifulSoup(markup, "html.parser")], the decompose loop and the
      reads of the tree: what they give, or the exception one of them
      raises (the parser rejects some markup) *)
  beautiful_soup : string -> outcome Soup;
  (** [urlparse(url).netloc] *)
  netloc : string -> string;
  (** [datetime.now().isoformat()] *)
  now_isoformat : string;
  (** [str(hash(url))] *)
  hash_str : string -> string;
  (** the exception [open(path, "w")] raises, if it does *)
  open_error : string -> option exn
}.

(** [e.get_text(separator=sep, strip=True)]: the stripped text nodes
    that are not empty, joined by [sep]. *)
Definition get_text (sep : string) (element : list string) : string :=
  join sep (List.filter nonempty (map strip element)).

(** [with open(path, "w", encoding="utf-8") as f: ...]: the file is
    opened, which may raise, and the content is written, which is taken
    to succeed once the file is open. *)
Definition write_file (env : Env) (path : string) (c : Files.content)
  : M Files.log unit :=
  let* _ := check (open_error env path) in
  modify (fun fs => fs ++ [(path, c)]).

(** [r.raise_for_status()] *)
Definition raise_for_status (r : Response) : M Files.log unit :=
  check (RequestException <$> http_error r).

Definition page_title (env : Env) (url : string) (soup : Soup) : string :=
  match title_string soup with
  | Some s => if nonempty s then strip s else netloc env url
  | None => netloc env url
  end.

Definition page_text (soup : Soup) : string :=
  let text :=
    join " " (map (get_text " ")
                  (List.filter (fun e => nonempty (get_text "" e))
                               (text_elements soup))) in
  let cleaned_text := strip (join " " (split text)) in
  if nonempty cleaned_text then cleaned_text
  else
    let body_text :=
      match body soup with
      | Some b => get_text " " b
      | None => ""
      end in
    strip (join " " (split body_text)).

Definition doc_id_of (env : Env) (url title : string) : string :=
  prefix 50 (lower (replace "/" "-" (replace " " "_" title)))
  ++ "_" ++ prefix 8 (hash_str env url).

Definition raw_path (doc_id : string) : string :=
  path_join RAW_DATA_DIR (doc_id ++ "_raw.html").

Definition processed_path (doc_id : string) : string :=
  path_join RAW_DATA_DIR (doc_id ++ "_processed.json").

(** The body of the [try] block. *)
Definition fetch (env : Env) (url : string) (timeout : nat)
  : M Files.log (gmap string string) :=
  let* r := call (requests_get env url timeout USER_AGENT) in
  let* _ := raise_for_status r in
  let* soup := call (beautiful_soup env (text r)) in
  let title := page_title env url soup in
  let cleaned_text := page_text soup in
  let metadata : gmap string string :=
    <["url" := url]>
    (<["title" := title]>
    (<["date_fetched" := now_isoformat env]>
    (<["source" := "web_page"]>
    (<["text" := cleaned_text]> ∅)))) in
  let doc_id := doc_id_of env url title in
  let* _ := write_file env (raw_path doc_id) (Files.Markup (text r)) in
  let* _ := write_file env (processed_path doc_id) (Files.Json metadata) in
  ret metadata.

Definition error_record (url message : string) : gmap string string :=
  <["url" := url]>
  (<["title" := "ERROR"]>
  (<["text" := message]>
  (<["source" := "web_page"]> ∅))).

(** [fetch_page_text(url, timeout)]; the first handler takes the
    [RequestException]s, the second every other [Exception]. *)
Definition fetch_page_text (env : Env) (url : string) (timeout : nat)
  : M Files.log (gmap string string) :=
  try_except (fetch env url timeout) any_exception
    (fun e =>
       if is_request_exception e
       then ret (error_record url ("Failed to fetch: " ++ str e))
       else ret (error_record url ("Unexpected error: " ++ str e))).

Definition DEFAULT_TIMEOUT : nat := 15.

(** The exception with which the request fails, if it fails: the one
    [requests.get] raises (network error, timeout, ...), or the
    [HTTPError] of [raise_for_status]. *)
Definition fetch_failure (env : Env) (url : string) (timeout : nat)
  : option exn :=
  match requests_get env url timeout USER_AGENT with
  | Raise e => Some e
  | Ok r => RequestException <$> http_error r
  end.

End WebCrawler.

(** ** [src/utils.py] *)

Module Utils.
Import Text.

Definition CHUNK_SIZE : nat := 512.
Definition CHUNK_OVERLAP : nat := 50.

(** A LangChain [Document]. *)
Record Document : Type := {
  page_content : string;
  metadata : gmap string string
}.

(** The arguments [get_text_splitter] gives to
    [RecursiveCharacterTextSplitter]; [length_function] is [len]. *)
Record TextSplitter : Type := {
  chunk_size : nat;
  chunk_overlap : nat;
  separators : list string;
  is_separator_regex : bool
}.

Definition get_text_splitter (chunk_size chunk_overlap : nat)
  : TextSplitter :=
  {| chunk_size := chunk_size;
     chunk_overlap := chunk_overlap;
     separators := [(nl ++ nl)%string; nl; " "; ""];
     is_separator_regex := false |}.

(** [RecursiveCharacterTextSplitter.split_text]: the pieces of a text
    under a configuration.  The algorithm is LangChain's and is not part
    of the repository; it is a parameter of what follows. *)
Definition SplitText : Type := TextSplitter -> string -> list string.

(** [splitter.split_documents(docs)]: every piece of a document's text
    becomes a [Document] with a copy of that document's metadata. *)
Definition split_documents (split_text : SplitText)
    (splitter : TextSplitter) (docs : list Document) : list Document :=
  flat_map
    (fun d =>
       map (fun piece => {| page_content := piece; metadata := metadata d |})
           (split_text splitter (page_content d)))
    docs.

(** Truthiness of [d.get(k)]: present and not empty. *)
Definition truthy (v : option string) : bool :=
  match v with
  | Some s => nonempty s
  | None => false
  end.

(** [a or b] *)
Definition py_or (a b : option string) : option string :=
  if truthy a then a else b.

(** [{k: v for k, v in doc.items() if k not in ['text', 'full_text']}] *)
Definition chunk_metadata (doc : gmap string string) : gmap string string :=
  filter (fun kv => kv.1 ∉ ["text"; "full_text"]) doc.

(** One turn of the loop of [split_text_into_chunks]. *)
Definition add_document (split_text : SplitText) (splitter : TextSplitter)
    (chunks : list Document) (doc : gmap string string) : list Document :=
  let content_text := py_or (doc !! "full_text") (doc !! "text") in
  if negb (truthy content_text) then chunks   (* [continue] *)
  else
    let metadata := chunk_metadata doc in
    let source_document :=
      {| page_content := default "" content_text; metadata := metadata |} in
    chunks ++ split_documents split_text splitter [source_document].

Definition split_text_into_chunks (split_text : SplitText)
    (documents : list (gmap string string)) : list Document :=
  let splitter := get_text_splitter CHUNK_SIZE CHUNK_OVERLAP in
  fold_left (add_document split_text splitter) documents [].

(** *** The selection of the text, in the words of the specification *)

(** "Select [full_text] if present else [text]": presence of the key
    decides. *)
Definition select_present (doc : gmap string string) : option string :=
  match doc !! "full_text" with
  | Some s => Some s
  | None => doc !! "text"
  end.

(** The same with "present" read as "present and not empty". *)
Definition select_nonempty (doc : gmap string string) : option string :=
  let text :=
    match doc !! "text" with
    | Some s => if nonempty s then Some s else None
    | None => None
    end in
  match doc !! "full_text" with
  | Some s => if nonempty s then Some s else text
  | None => text
  end.

(** The chunks of one record: none when no text is selected, else one
    per piece of the selected text, each with the record's fields other
    than [text] and [full_text]. *)
Definition chunks_of (split_text : SplitText) (doc : gmap string string)
  : list Document :=
  match select_nonempty doc with
  | None => []
  | Some t =>
      map (fun piece =>
             {| page_content := piece;
                metadata := delete "text" (delete "full_text" doc) |})
          (split_text (get_text_splitter CHUNK_SIZE CHUNK_OVERLAP) t)
  end.

End Utils.

(** ** [src/vectorstore.py] *)

Module VectorStore.
Import Py Py.Notations Utils.

Definition CHROMA_DB_PATH : string := "./chroma_db".
Definition CHROMA_COLLECTION_NAME : string := "rag_capstone_collection_v1".

(** An entry of the collection.  Chroma names entries by fresh UUIDs; a
    counter stands for the supply of unused names.  The embedding vector,
    computed by the external model, is left out. *)
Record Entry : Type := {
  entry_id : nat;
  document : Document
}.

Record Chroma : Type := {
  collection : list Entry;     (* the entries of the open collection *)
  persisted : list Entry;      (* what [persist()] last wrote *)
  next_id : nat                (* the next unused entry name *)
}.

(** The exception a call on the store raises, if it does. *)
Record Env : Type := {
  open_error : Chroma -> option exn;
  get_error : Chroma -> option exn;
  delete_error : list nat -> Chroma -> option exn;
  add_error : list Document -> Chroma -> option exn;
  persist_error : Chroma -> option exn
}.

Definition guarded (err : Chroma -> option exn) : M Chroma unit :=
  let* db := get in check (err db).

(** [Chroma(persist_directory=..., collection_name=..., embedding_function=...)] *)
Definition open_store (env : Env) : M Chroma unit :=
  guarded (open_error env).

(** [vectordb.get()["ids"]] *)
Definition vdb_get (env : Env) : M Chroma (list nat) :=
  let* _ := guarded (get_error env) in
  let* db := get in
  ret (map entry_id (collection db)).

(** [vectordb.delete(ids=ids)] *)
Definition vdb_delete (env : Env) (ids : list nat) : M Chroma unit :=
  let* _ := guarded (delete_error env ids) in
  modify (fun db =>
            {| collection :=
                 List.filter (fun e => negb (bool_decide (entry_id e ∈ ids)))
                             (collection db);
               persisted := persisted db;
               next_id := next_id db |}).

Fixpoint new_entries (first : nat) (chunks : list Document) : list Entry :=
  match chunks with
  | [] => []
  | c :: rest =>
      {| entry_id := first; document := c |} :: new_entries (S first) rest
  end.

(** [vectordb.add_documents(chunks)] *)
Definition vdb_add_documents (env : Env) (chunks : list Document)
  : M Chroma unit :=
  let* _ := guarded (add_error env chunks) in
  modify (fun db =>
            {| collection := collection db ++ new_entries (next_id db) chunks;
               persisted := persisted db;
               next_id := next_id db + length chunks |}).

(** [vectordb.persist()] *)
Definition vdb_persist (env : Env) : M Chroma unit :=
  let* _ := guarded (persist_error env) in
  modify (fun db =>
            {| collection := collection db;
               persisted := collection db;
               next_id := next_id db |}).

(** The [try] block that empties the collection. *)
Definition wipe (env : Env) : M Chroma unit :=
  let* ids := vdb_get env in
  match ids with
  | _ :: _ =>
      let* _ := vdb_delete env ids in
      vdb_persist env
  | [] => ret tt
  end.

(** [create_vector_store(chunks, embedding_function)], run on the store
    as it is on disk. *)
Definition create_vector_store (env : Env) (chunks : list Document)
  : M Chroma unit :=
  let* _ := open_store env in
  let* _ := try_except (wipe env) any_exception (fun _ => ret tt) in
  let* _ := vdb_add_documents env chunks in
  vdb_persist env.

(** No call on the store raises. *)
Definition reliable (env : Env) : Prop :=
  (forall db, open_error env db = None) /\
  (forall db, get_error env db = None) /\
  (forall ids db, delete_error env ids db = None) /\
  (forall chunks db, add_error env chunks db = None) /\
  (forall db, persist_error env db = None).

Definition no_faults : Env :=
  {| open_error := fun _ => None;
     get_error := fun _ => None;
     delete_error := fun _ _ => None;
     add_error := fun _ _ => None;
     persist_error := fun _ => None |}.

End VectorStore.

(** ** [src/rag_pipeline.py] *)

Module RagPipeline.
Import Py Py.Notations Utils VectorStore.

Definition K_RETRIEVAL : nat := 5.

(** The calls that leave the process or reach the user, in the order in
    which they are made. *)
Inductive action : Type :=
| GetEmbeddingFunction
| OpenChroma (path name : string)
| AsRetriever (k : nat)
| ChatGroq (model_name : string)        (* language-model initialisation *)
| FromChainType
| Invoke (query : string)               (* retrieval and generation *)
| StError (message : string)
| StWarning (message : string)
| StMarkdown (message : string)
| StStop.

Definition trace : Type := list action.

Definition does (a : action) : M trace unit :=
  modify (fun t => t ++ [a]).

Record RetrievalQA : Type := {
  model_name : string;
  retriever_k : nat;
  return_source_documents : bool
}.

Record Env : Type := {
  (** [os.getenv("GROQ_MODEL", "llama-3.1-8b-instant")] *)
  GROQ_MODEL : string;
  (** [os.path.exists(CHROMA_DB_PATH)] *)
  chroma_db_exists : bool;
  (** the exceptions of the constructors, if they raise *)
  embedding_error : option exn;
  chroma_error : option exn;
  llm_error : option exn;
  chain_error : option exn
}.

Definition not_found_message : string :=
  "ChromaDB not found at " ++ CHROMA_DB_PATH
  ++ ". Please run src/vectorstore.py first.".

Definition build_rag_chain (env : Env) : M trace RetrievalQA :=
  let* _ := does GetEmbeddingFunction in
  let* _ := check (embedding_error env) in
  let* _ :=
    (if negb (chroma_db_exists env)
     then raise (FileNotFoundError not_found_message)
     else ret tt) in
  let* _ := does (OpenChroma CHROMA_DB_PATH CHROMA_COLLECTION_NAME) in
  let* _ := check (chroma_error env) in
  let* _ := does (AsRetriever K_RETRIEVAL) in
  let* _ := does (ChatGroq (GROQ_MODEL env)) in
  let* _ := check (llm_error env) in
  let* _ := does FromChainType in
  let* _ := check (chain_error env) in
  ret {| model_name := GROQ_MODEL env;
         retriever_k := K_RETRIEVAL;
         return_source_documents := true |}.

End RagPipeline.

(** ** [streamlit_app.py]: the query side of the script *)

Module StreamlitApp.
Import Text Py Py.Notations Utils VectorStore RagPipeline.

Record Env : Type := {
  (** [os.getenv("GROQ_API_KEY")] *)
  GROQ_API_KEY : option string;
  pipeline : RagPipeline.Env;
  (** [qa_chain.invoke({"query": prompt})]: the answer and the retrieved
      documents, or the exception *)
  invoke : string -> outcome (string * list Document)
}.

Definition key_message : string :=
  "GROQ_API_KEY is not set in your environment or .env file.".

Definition missing_db_message : string :=
  "ChromaDB not found. Please run 'python -m src.vectorstore' first "
  ++ "to create the knowledge base from your processed data.".

Definition load_rag_chain (env : Env) : M trace (option RetrievalQA) :=
  if negb (truthy (GROQ_API_KEY env))
  then
    let* _ := does (StError key_message) in
    ret None
  else if negb (chroma_db_exists (pipeline env))
  then
    let* _ := does (StWarning missing_db_message) in
    ret None
  else
    try_except
      (let* chain := build_rag_chain (pipeline env) in ret (Some chain))
      any_exception
      (fun e =>
         let* _ := does (StError ("Error during RAG chain initialization: "
                                  ++ str e)) in
         ret None).

(** [d.get(k, fallback)] *)
Definition get_or (d : gmap string string) (k fallback : string) : string :=
  default fallback (d !! k).

(** The tuple added to [unique_sources] for one retrieved document. *)
Definition citation (doc : Document) : string * string * string :=
  let title := get_or (metadata doc) "title" "Untitled Document" in
  let source := get_or (metadata doc) "source" "Unknown Source" in
  let url_or_path :=
    get_or (metadata doc) "url" (get_or (metadata doc) "path" "N/A") in
  (title, source, url_or_path).

Definition unique_sources (source_documents : list Document)
  : gset (string * string * string) :=
  fold_left (fun acc doc => acc ∪ {[ citation doc ]}) source_documents ∅.

(** One line of the source list. *)
Definition source_line (c : string * string * string) : string :=
  let '(title, source, url_or_path) := c in
  "- **" ++ title ++ "** (" ++ source ++ "): `" ++ url_or_path ++ "`" ++ nl.

(** The heading of the source list; the book emoji of the source is
    held as the bytes of its UTF-8 encoding. *)
Definition sources_header : string :=
  "### 📚 Sources Used" ++ nl ++ nl.

(** The lines of the source list; a Python [set] fixes no order, and
    [elements] picks one. *)
Definition source_lines (source_documents : list Document) : list string :=
  map source_line (elements (unique_sources source_documents)).

(** The chat part of the script, for one submitted [prompt]. *)
Definition chat (env : Env) (qa_chain : option RetrievalQA)
    (prompt : option string) : M trace unit :=
  match qa_chain with
  | None => does StStop
  | Some _ =>
      if truthy prompt
      then
        let p := default "" prompt in
        let* _ := does (StMarkdown p) in
        let* _ := does (Invoke p) in
        try_except
          (let* response := call (invoke env p) in
           let llm_answer := fst response in
           let source_documents := snd response in
           does (StMarkdown
                   ("**" ++ llm_answer ++ "**" ++ nl ++ nl ++ "---" ++ nl ++ nl
                    ++ sources_header
                    ++ join "" (source_lines source_documents))))
          any_exception
          (fun e => does (StError ("An error occurred during RAG query: "
                                   ++ str e)))
      else ret tt
  end.

(** One run of the script with nothing submitted in the upload form. *)
Definition script (env : Env) (prompt : option string) : M trace unit :=
  let* qa_chain := load_rag_chain env in
  chat env qa_chain prompt.

Definition attempts_language_model (a : action) : bool :=
  match a with
  | ChatGroq _ | Invoke _ => true
  | _ => false
  end.

End StreamlitApp.

(** ** Concrete inputs *)

Module Examples.
Import Text Py.

(** A PDF of one page, found at every path; every write succeeds. *)
Definition one_page (text : string) : PdfScraper.Env :=
  {| PdfScraper.path_exists := fun _ => true;
     PdfScraper.pdf_open := fun _ => Ok [Ok (Some text)];
     PdfScraper.open_error := fun _ => None |}.

(** No file at any path. *)
Definition no_file : PdfScraper.Env :=
  {| PdfScraper.path_exists := fun _ => false;
     PdfScraper.pdf_open := fun _ => Raise (FileNotFoundError "no such file");
     PdfScraper.open_error := fun _ => None |}.

(** A paper with an abstract and an introduction and no conclusion. *)
Definition survey : string :=
  join nl [ "A Survey"; "Abstract"; "We Study RAG."; "1 Introduction";
            "Retrieval helps."; "2 METHODS"; "Details." ].

(** The abstract heading is followed at once by the introduction
    heading. *)
Definition blank_abstract : string :=
  join nl [ "Abstract"; "Introduction"; "Body" ].

(** A splitter that cuts a text into its words. *)
Definition by_words : Utils.SplitText := fun _ t => split t.

(** A record whose [full_text] field is present and empty. *)
Definition empty_full_text : gmap string string :=
  <["title" := "Notes"]> (<["full_text" := ""]> (<["text" := "hello"]> ∅)).

(** A record as the web crawler writes it. *)
Definition web_record : gmap string string :=
  <["url" := "https://example.com/a"]>
  (<["title" := "RAG Notes"]>
  (<["source" := "web_page"]>
  (<["text" := "RAG combines retrieval with generation."]> ∅))).

(** Two chunks cut from [web_record]. *)
Definition two_chunks : list Utils.Document :=
  [ {| Utils.page_content := "RAG combines retrieval";
       Utils.metadata := delete "text" web_record |};
    {| Utils.page_content := "with generation.";
       Utils.metadata := delete "text" web_record |} ].

Definition old_entry : VectorStore.Entry :=
  {| VectorStore.entry_id := 0;
     VectorStore.document :=
       {| Utils.page_content := "An older passage.";
          Utils.metadata := <["title" := "Old"]> ∅ |} |}.

(** A store left by an earlier ingestion, with one entry. *)
Definition indexed : VectorStore.Chroma :=
  {| VectorStore.collection := [old_entry];
     VectorStore.persisted := [old_entry];
     VectorStore.next_id := 1 |}.

(** A store on which [get()] raises and every other call returns. *)
Definition get_raises : VectorStore.Env :=
  {| VectorStore.open_error := fun _ => None;
     VectorStore.get_error :=
       fun _ => Some (OtherException "database is locked");
     VectorStore.delete_error := fun _ _ => None;
     VectorStore.add_error := fun _ _ => None;
     VectorStore.persist_error := fun _ => None |}.

(** Before any ingestion: no index directory.  The constructors would
    all return. *)
Definition no_index : RagPipeline.Env :=
  {| RagPipeline.GROQ_MODEL := "llama-3.1-8b-instant";
     RagPipeline.chroma_db_exists := false;
     RagPipeline.embedding_error := None;
     RagPipeline.chroma_error := None;
     RagPipeline.llm_error := None;
     RagPipeline.chain_error := None |}.

Definition answers (q : string) : outcome (string * list Utils.Document) :=
  Ok ("RAG combines retrieval with generation.", two_chunks).

(** No index, and the credential is set. *)
Definition key_no_index : StreamlitApp.Env :=
  {| StreamlitApp.GROQ_API_KEY := Some "gsk_test";
     StreamlitApp.pipeline := no_index;
     StreamlitApp.invoke := answers |}.

(** No index, and no credential either. *)
Definition no_key_no_index : StreamlitApp.Env :=
  {| StreamlitApp.GROQ_API_KEY := None;
     StreamlitApp.pipeline := no_index;
     StreamlitApp.invoke := answers |}.

(** A network on which every request times out. *)
Definition offline : WebCrawler.Env :=
  {| WebCrawler.requests_get :=
       fun _ _ _ => Raise (RequestException "Read timed out.");
     WebCrawler.beautiful_soup :=
       fun _ => Ok {| WebCrawler.title_string := None;
                      WebCrawler.text_elements := [];
                      WebCrawler.body := None |};
     WebCrawler.netloc := fun _ => "example.com";
     WebCrawler.now_isoformat := "2024-01-01T00:00:00";
     WebCrawler.hash_str := fun _ => "-1234567890123";
     WebCrawler.open_error := fun _ => None |}.

(** A page with a title and one paragraph. *)
Definition notes_page : WebCrawler.Soup :=
  {| WebCrawler.title_string := Some " RAG Notes ";
     WebCrawler.text_elements :=
       [ ["RAG combines retrieval"; " with generation. "] ];
     WebCrawler.body := Some ["RAG combines retrieval with generation."] |}.

(** A network that serves one page at every address. *)
Definition online : WebCrawler.Env :=
  {| WebCrawler.requests_get :=
       fun _ _ _ =>
         Ok {| WebCrawler.text := "<html>...</html>";
               WebCrawler.http_error := None |};
     WebCrawler.beautiful_soup :=
       fun _ => Ok notes_page;
     WebCrawler.netloc := fun _ => "example.com";
     WebCrawler.now_isoformat := "2024-01-01T00:00:00";
     WebCrawler.hash_str := fun _ => "-1234567890123";
     WebCrawler.open_error := fun _ => None |}.

(** A network that serves markup which the parser rejects. *)
Definition malformed : WebCrawler.Env :=
  {| WebCrawler.requests_get :=
       fun _ _ _ =>
         Ok {| WebCrawler.text := "<![foo[ x ]]>";
               WebCrawler.http_error := None |};
     WebCrawler.beautiful_soup :=
       fun _ => Raise (OtherException "markup rejected by the parser");
     WebCrawler.netloc := fun _ => "example.com";
     WebCrawler.now_isoformat := "2024-01-01T00:00:00";
     WebCrawler.hash_str := fun _ => "-1234567890123";
     WebCrawler.open_error := fun _ => None |}.

End Examples.

(** ** Shapes of strings *)

Module Shape.
Import Text.

(** A word: not empty, and without whitespace. *)
Definition is_word (s : string) : Prop :=
  chars s <> [] /\ Forall (fun c => isspace c = false) (chars s).

(** [w] occurs in [s]. *)
Definition occurs (w s : string) : Prop :=
  exists pre post, s = (pre ++ w ++ post)%string.

(** The character [a] does not occur in [s]. *)
Definition lacks (a : ascii) (s : string) : Prop :=
  Forall (fun c => c <> a) (chars s).

(** [len(s)] *)
Definition len (s : string) : nat := length (chars s).

End Shape.

(** ** The record of a successful fetch *)

Module Fetched.
Import Text WebCrawler.

(** The dictionary [metadata] that [fetch_page_text] builds from the
    parsed page. *)
Definition success_record (env : Env) (url : string) (soup : Soup)
  : gmap string string :=
  <["url" := url]>
  (<["title" := page_title env url soup]>
  (<["date_fetched" := now_isoformat env]>
  (<["source" := "web_page"]>
  (<["text" := page_text soup]> ∅)))).

End Fetched.

(** ** [src/utils.py]: loading the processed records *)

Module Loader.
Import Text Py Py.Notations Utils.

Definition DATA_DIRS : list string :=
  ["data/raw_web"; "data/papers/processed"].

Record Env : Type := {
  (** [os.listdir(directory)] *)
  listdir : string -> outcome (list string);
  (** [json.load(f)] on the file opened at a path: the record, or the
      exception of [open] or of the decoder *)
  load_json : string -> outcome (gmap string string)
}.

(** [s.endswith(suffix)] *)
Definition endswith (suffix s : string) : bool :=
  starts_with (rev (chars suffix)) (rev (chars s)).

(** The body of the inner loop; [all_documents] is the state.  Both
    handlers skip the file. *)
Definition load_file (env : Env) (directory filename : string)
  : M (list (gmap string string)) unit :=
  if endswith "_processed.json" filename
  then
    let file_path := path_join directory filename in
    try_except
      (let* data := call (load_json env file_path) in
       if truthy (py_or (data !! "text") (data !! "full_text"))
       then modify (fun all_documents => all_documents ++ [data])
       else ret tt)
      any_exception
      (fun _ => ret tt)
  else ret tt.

Definition load_directory (env : Env) (directory : string)
  : M (list (gmap string string)) unit :=
  let* names := call (listdir env directory) in
  let* _ := for_each (load_file env directory) names in
  ret tt.

(** [load_processed_data(data_directories)] *)
Definition load_processed_data (env : Env) (data_directories : list string)
  : outcome (list (gmap string string)) :=
  match for_each (load_directory env) data_directories [] with
  | (Ok _, all_documents) => Ok all_documents
  | (Raise e, _) => Raise e
  end.

(** What the loop keeps of one file: its record, when the name ends in
    ["_processed.json"], the file loads, and its [text] or its [full_text]
    is not empty. *)
Definition kept (env : Env) (directory filename : string)
  : option (gmap string string) :=
  if endswith "_processed.json" filename
  then match load_json env (path_join directory filename) with
       | Ok data =>
           if truthy (data !! "text") || truthy (data !! "full_text")
           then Some data else None
       | Raise _ => None
       end
  else None.

End Loader.

(** ** [src/rag_pipeline.py]: queries and the evaluation suite *)

Module Evaluation.
Import Text Py Py.Notations Utils RagPipeline.

Record Env : Type := {
  (** [qa_chain.invoke({"query": query})]: the answer and the retrieved
      documents, or the exception *)
  invoke : string -> outcome (string * list Document)
}.

(** [d[k]], which raises [KeyError] on a missing key. *)
Definition item (d : gmap string string) (k : string) : M trace string :=
  match d !! k with
  | Some v => ret v
  | None => raise (OtherException ("'" ++ k ++ "'"))
  end.

(** [run_rag_query(qa_chain, query)]; what it prints is left out. *)
Definition run_rag_query (env : Env) (query : string)
  : M trace (string * list Document) :=
  let* _ := does (Invoke query) in
  call (invoke env query).

(** A row of [evaluation_results]. *)
Record Row : Type := {
  ID : nat;
  Query : string;
  Expected_Fact : string;
  LLM_Response_Snippet : string;
  Retrieved_Sources : string;
  Relevance_Score : string;
  Correctness_Score : string
}.

(** [response['result'][:150].replace('\n', ' ') + '...'] *)
Definition snippet (result : string) : string :=
  replace nl " " (prefix 150 result) ++ "...".

(** [", ".join(set(sources))]; a Python [set] fixes no order, and
    [elements] picks one. *)
Definition joined_titles (source_documents : list Document) : string :=
  let sources :=
    map (fun doc => default "N/A" (metadata doc !! "title"))
        source_documents in
  join ", " (elements (list_to_set sources : gset string)).

(** One turn of the loop of [run_evaluation_suite], for the test case of
    index [i]. *)
Definition evaluate (env : Env) (i : nat) (test_case : gmap string string)
  : M trace Row :=
  let* query := item test_case "query" in
  let* response := run_rag_query env query in
  let* expected_fact := item test_case "expected_fact" in
  ret {| ID := i + 1;
         Query := query;
         Expected_Fact := expected_fact;
         LLM_Response_Snippet := snippet (fst response);
         Retrieved_Sources := joined_titles (snd response);
         Relevance_Score := "TBD (Manual)";
         Correctness_Score := "TBD (Manual)" |}.

(** The loop over [enumerate(test_set)], from index [i] on. *)
Fixpoint evaluate_from (env : Env) (i : nat)
    (test_set : list (gmap string string)) : M trace (list Row) :=
  match test_set with
  | [] => ret []
  | test_case :: rest =>
      let* row := evaluate env i test_case in
      let* rows := evaluate_from env (S i) rest in
      ret (row :: rows)
  end.

(** [run_evaluation_suite(qa_chain, test_set)]: the rows of the table it
    prints. *)
Definition run_evaluation_suite (env : Env)
    (test_set : list (gmap string string)) : M trace (list Row) :=
  evaluate_from env 0 test_set.

(** A test case that is answered: it has its two fields, and the chain
    returns on its query. *)
Definition answered (env : Env) (test_case : gmap string string) : Prop :=
  exists query expected_fact response,
    test_case !! "query" = Some query /\
    test_case !! "expected_fact" = Some expected_fact /\
    invoke env query = Ok response.

End Evaluation.

(** ** More concrete inputs *)

Module Cases.
Import Text Py.

(** A text in which the letter b does not occur. *)
Definition plain : string := join nl [ "Notes"; "Plain text only." ].

(** A PDF of one page, in a directory where no file can be written. *)
Definition read_only (text : string) : PdfScraper.Env :=
  {| PdfScraper.path_exists := fun _ => true;
     PdfScraper.pdf_open := fun _ => Ok [Ok (Some text)];
     PdfScraper.open_error :=
       fun _ => Some (OtherException "Permission denied") |}.

(** The network of [Examples.online], on a disk that takes the raw
    markup and refuses the processed records. *)
Definition no_json_writes : WebCrawler.Env :=
  {| WebCrawler.requests_get := WebCrawler.requests_get Examples.online;
     WebCrawler.beautiful_soup := WebCrawler.beautiful_soup Examples.online;
     WebCrawler.netloc := WebCrawler.netloc Examples.online;
     WebCrawler.now_isoformat := WebCrawler.now_isoformat Examples.online;
     WebCrawler.hash_str := WebCrawler.hash_str Examples.online;
     WebCrawler.open_error :=
       fun path =>
         if Loader.endswith "_processed.json" path
         then Some (OtherException "No space left on device")
         else None |}.

(** A record as the PDF scraper writes it: no [text], no [full_text]. *)
Definition pdf_json : gmap string string :=
  <["title" := "A Survey"]>
  (<["abstract" := "we study rag."]>
  (<["source" := "pdf_paper"]> ∅)).

(** Two data directories: a page with its markup, a file that does not
    decode, and the record of a PDF. *)
Definition disk : Loader.Env :=
  {| Loader.listdir :=
       fun d =>
         if String.eqb d "data/raw_web"
         then Ok ["a_raw.html"; "a_processed.json"; "b_processed.json"]
         else if String.eqb d "data/papers/processed"
         then Ok ["p_processed.json"]
         else Raise (FileNotFoundError d);
     Loader.load_json :=
       fun p =>
         if String.eqb p "data/raw_web/a_processed.json"
         then Ok Examples.web_record
         else if String.eqb p "data/papers/processed/p_processed.json"
         then Ok pdf_json
         else Raise (OtherException "Expecting value") |}.

Definition listing (d : string) : list string :=
  if String.eqb d "data/raw_web"
  then ["a_raw.html"; "a_processed.json"; "b_processed.json"]
  else ["p_processed.json"].

(** A store on which adding documents raises. *)
Definition add_raises : VectorStore.Env :=
  {| VectorStore.open_error := fun _ => None;
     VectorStore.get_error := fun _ => None;
     VectorStore.delete_error := fun _ _ => None;
     VectorStore.add_error :=
       fun _ _ => Some (OtherException "embedding failed");
     VectorStore.persist_error := fun _ => None |}.

(** The index is there and every constructor returns. *)
Definition ready : RagPipeline.Env :=
  {| RagPipeline.GROQ_MODEL := "llama-3.1-8b-instant";
     RagPipeline.chroma_db_exists := true;
     RagPipeline.embedding_error := None;
     RagPipeline.chroma_error := None;
     RagPipeline.llm_error := None;
     RagPipeline.chain_error := None |}.

(** A page whose language model is over its rate limit. *)
Definition rate_limited : StreamlitApp.Env :=
  {| StreamlitApp.GROQ_API_KEY := Some "gsk_test";
     StreamlitApp.pipeline := ready;
     StreamlitApp.invoke := fun _ => Raise (OtherException "rate limit") |}.

Definition chain : RagPipeline.RetrievalQA :=
  {| RagPipeline.model_name := "llama-3.1-8b-instant";
     RagPipeline.retriever_k := 5;
     RagPipeline.return_source_documents := true |}.

(** A chain that raises on the query ["bad"] and answers every other. *)
Definition moody : Evaluation.Env :=
  {| Evaluation.invoke :=
       fun q =>
         if String.eqb q "bad"
         then Raise (OtherException "rate limit")
         else Ok (("RAG combines" ++ nl ++ "retrieval with generation.")%string,
                  Examples.two_chunks) |}.

Definition test_case (query expected_fact : string) : gmap string string :=
  <["query" := query]> (<["expected_fact" := expected_fact]> ∅).

End Cases.

(** * Properties *)

(** ** Characters and strings *)

Section TextFacts.
Import Text.

Lemma chars_of_chars (l : list ascii) : chars (of_chars l) = l.
Proof. apply list_ascii_of_string_of_list_ascii. Qed.

Lemma of_chars_chars (s : string) : of_chars (chars s) = s.
Proof. apply string_of_list_ascii_of_string. Qed.

Lemma chars_app (a b : string) : chars (a ++ b) = (chars a ++ chars b)%list.
Proof. induction a as [|c a IH]; simpl; [done | by rewrite IH]. Qed.

Lemma lower_char_lower_char (c : ascii) :
  lower_char (lower_char c) = lower_char c.
Proof. destruct c as [[] [] [] [] [] [] [] []]; reflexivity. Qed.

Lemma lower_char_no_capital (c : ascii) :
  between 65 90 (code (lower_char c)) = false.
Proof. destruct c as [[] [] [] [] [] [] [] []]; reflexivity. Qed.

Lemma every_of_chars (P : ascii -> Prop) (l : list ascii) :
  Forall P l -> every P (of_chars l).
Proof. unfold every. by rewrite chars_of_chars. Qed.

Lemma every_lower (P : ascii -> Prop) (s : string) :
  (forall c, P (lower_char c)) -> every P (lower s).
Proof.
  intros H. apply every_of_chars, Forall_forall. intros c Hc.
  apply list_elem_of_In, in_map_iff in Hc as (c' & <- & _). apply H.
Qed.

Lemma every_slice (P : ascii -> Prop) (s : string) (i j : nat) :
  every P s -> every P (slice s i j).
Proof.
  intros H. apply every_of_chars. by apply Forall_take, Forall_drop.
Qed.

Lemma Forall_lstrip_chars (P : ascii -> Prop) (l : list ascii) :
  Forall P l -> Forall P (lstrip_chars l).
Proof.
  induction 1 as [|c l Hc Hl IH]; simpl; [constructor|].
  destruct (isspace c); [done | by constructor].
Qed.

Lemma every_strip (P : ascii -> Prop) (s : string) :
  every P s -> every P (strip s).
Proof.
  intros H. apply every_of_chars. unfold strip_chars.
  apply Forall_rev, Forall_lstrip_chars, Forall_rev.
  by apply Forall_lstrip_chars.
Qed.

Lemma Forall_split_go (P : ascii -> Prop) (l cur : list ascii) :
  Forall P l -> Forall P cur -> Forall (Forall P) (split_go cur l).
Proof.
  intros Hl. revert cur.
  induction Hl as [|c l Hc Hl IH]; intros cur Hcur; simpl.
  - destruct cur; constructor; [by apply Forall_rev | constructor].
  - destruct (isspace c).
    + destruct cur; [by apply IH|].
      constructor; [by apply Forall_rev | by apply IH].
    + apply IH. by constructor.
Qed.

Lemma every_split (P : ascii -> Prop) (s : string) :
  every P s -> Forall (every P) (split s).
Proof.
  intros H. unfold split. apply Forall_fmap.
  eapply Forall_impl; [apply Forall_split_go; [exact H | constructor]|].
  intros l Hl. by apply every_of_chars.
Qed.

Lemma every_app (P : ascii -> Prop) (a b : string) :
  every P a -> every P b -> every P (a ++ b).
Proof. unfold every. rewrite chars_app. apply Forall_app_2. Qed.

Lemma every_join (P : ascii -> Prop) (sep : string) (parts : list string) :
  every P sep -> Forall (every P) parts -> every P (join sep parts).
Proof.
  intros Hsep. induction 1 as [|p rest Hp Hrest IH]; [constructor|].
  destruct rest as [|q rest]; [exact Hp|].
  change (every P (p ++ sep ++ join sep (q :: rest))).
  by repeat apply every_app.
Qed.

(** A string is in lowercase form exactly when each of its characters
    is. *)
Lemma lowered_every (s : string) :
  lowered s <-> every (fun c => lower_char c = c) s.
Proof.
  unfold lowered, lower, every. split.
  - intros H.
    assert (Hl : map lower_char (chars s) = chars s).
    { by rewrite <- (chars_of_chars (map _ _)), H. }
    revert Hl. generalize (chars s). intros l.
    induction l as [|c l IH]; simpl; [constructor|].
    intros [= Hc Hl]. constructor; [exact Hc | by apply IH].
  - intros H. rewrite <- (of_chars_chars s) at 2. f_equal.
    induction H as [|c l Hc Hl IH]; simpl; [done | by rewrite Hc, IH].
Qed.

Lemma lowered_lower (s : string) : lowered (lower s).
Proof. apply lowered_every, every_lower, lower_char_lower_char. Qed.

Lemma no_capital_lower (s : string) : no_capital (lower s).
Proof. apply every_lower, lower_char_no_capital. Qed.

Lemma nonempty_false (s : string) : nonempty s = false -> s = "".
Proof. by destruct s. Qed.

End TextFacts.

(** ** The PDF section extractor *)

Section PdfFacts.
Import Text Re Py Py.Notations PdfScraper.

Lemma search_subject (re : regex) (t : string) (m : Match) :
  search re t = Some m -> subject m = t.
Proof.
  unfold search.
  destruct (search_from re true 0 (chars t)) as [[sp|]|]; [|done..].
  by intros [= <-].
Qed.

Lemma safe_search_slice (re : regex) (t : string) (m : Match) :
  search re t = Some m ->
  safe_search re t ""
  = join " " (split (strip (slice t (fst (span1 m)) (snd (span1 m))))).
Proof.
  intros Hm. unfold safe_search, group1.
  by rewrite Hm, (search_subject _ _ _ Hm).
Qed.

Lemma safe_search_none (re : regex) (t : string) :
  search re t = None -> safe_search re t "" = "".
Proof. intros Hm. unfold safe_search. by rewrite Hm. Qed.

(** What holds of every character of the text searched, and of the
    space, holds of every character of the section found. *)
Lemma every_safe_search (P : ascii -> Prop) (re : regex) (t : string) :
  P " "%char -> every P t -> every P (safe_search re t "").
Proof.
  intros Hsp Ht. unfold safe_search.
  destruct (search re t) as [m|] eqn:Hm; [|constructor].
  apply every_join; [by repeat constructor|].
  apply every_split, every_strip, every_slice.
  by rewrite (search_subject _ _ _ Hm).
Qed.

Lemma lowered_safe_search (re : regex) (t : string) :
  lowered (safe_search re (lower t) "").
Proof.
  apply lowered_every, every_safe_search; [reflexivity|].
  apply lowered_every, lowered_lower.
Qed.

Lemma no_capital_safe_search (re : regex) (t : string) :
  no_capital (safe_search re (lower t) "").
Proof.
  apply every_safe_search; [reflexivity | apply no_capital_lower].
Qed.

(** Reading the pages when every [extract_text()] returns. *)
Lemma for_each_pages (texts : list (option string)) (s : State) :
  for_each (fun page => let* t := call page in ret (default "" t))
           (map Ok texts) s
  = (Ok (map (default "") texts), s).
Proof.
  induction texts as [|t texts IH]; [done|].
  simpl. unfold bind at 1. unfold bind at 1. unfold call at 1. simpl.
  unfold bind at 1. by rewrite IH.
Qed.

(** Reading the pages when some [extract_text()] raises. *)
Lemma for_each_pages_raise (pages : list (outcome (option string)))
    (e : exn) (s : State) :
  In (Raise e) pages ->
  exists e',
    for_each (fun page => let* t := call page in ret (default "" t)) pages s
    = (Raise e', s).
Proof.
  induction pages as [|p pages IH]; [done|].
  intros Hin. simpl. unfold bind at 1. unfold bind at 1. unfold call at 1.
  destruct p as [t|e0]; [|by exists e0].
  simpl. unfold bind at 1.
  destruct Hin as [Heq|Hin]; [done|].
  destruct (IH Hin) as [e' ->]. by exists e'.
Qed.

Lemma process_run env path texts t0 rest fs :
  pdf_open env path = Ok (map Ok texts) ->
  map (default "") texts = t0 :: rest ->
  let m := populated path t0 (join nl (t0 :: rest)) in
  process env path {| metadata := initial_metadata path; files := fs |}
  = match open_error env (output_path path) with
    | None =>
        (Ok m,
         {| metadata := m;
            files := fs ++ [(output_path path,
                             Files.Json (filter (fun kv => kv.1 <> "full_text") m))] |})
    | Some e => (Raise e, {| metadata := m; files := fs |})
    end.
Proof.
  intros Hopen Htexts m.
  unfold process. unfold bind at 1. unfold call at 1. rewrite Hopen.
  unfold bind at 1. rewrite for_each_pages. rewrite Htexts.
  unfold bind at 1. unfold first_item, ret at 1.
  subst m. unfold populated, found_abstract, fallback_abstract.
  generalize (join nl (t0 :: rest)). intros ft.
  unfold bind, set_item, get_item, the_metadata, write_file, check, modify,
    get, ret, raise; simpl.
  rewrite lookup_insert_ne by done. rewrite lookup_insert_ne by done.
  rewrite lookup_insert_eq. simpl.
  destruct (nonempty (safe_search ABSTRACT_REGEX (lower ft) ""));
    destruct (open_error env (output_path path)); reflexivity.
Qed.

(** On a PDF that cannot be parsed the [try] block raises before it has
    touched the dictionary or the files. *)
Lemma process_unparseable env path s :
  unparseable env path ->
  exists e, process env path s = (Raise e, s).
Proof.
  intros [[e He]|(pages & Hopen & Hpages)]; unfold process.
  - exists e. unfold bind at 1. unfold call at 1. by rewrite He.
  - unfold bind at 1. unfold call at 1. rewrite Hopen.
    destruct Hpages as [->|[e He]].
    + eexists. reflexivity.
    + destruct (for_each_pages_raise pages e s He) as [e' He'].
      exists e'. unfold bind at 1. by rewrite He'.
Qed.

(** A record that is the run's dictionary, with or without an [error]
    entry. *)
Lemma extract_pdf_sections_run env path t ts fs :
  path_exists env path = true ->
  pdf_open env path = Ok (map Ok (t :: ts)) ->
  let first_page := default "" t in
  let full_text := join nl (map (default "") (t :: ts)) in
  exists r,
    fst (extract_pdf_sections env path fs) = Ok r /\
    forall k, k <> "error" ->
      r !! k = populated path first_page full_text !! k.
Proof.
  intros Hex Hopen first_page full_text.
  unfold extract_pdf_sections, extract_pdf_sections_body.
  rewrite Hex. unfold try_except. change (negb true) with false.
  cbv beta iota.
  pose proof (process_run env path (t :: ts) first_page
                (map (default "") ts) fs Hopen eq_refl) as Hrun.
  cbv zeta in Hrun. rewrite Hrun. clear Hrun.
  change (join nl (first_page :: map (default "") ts)) with full_text.
  destruct (open_error env (output_path path)) as [e|].
  - simpl. eexists. split; [reflexivity|].
    intros k Hk. by rewrite lookup_insert_ne.
  - simpl. eexists. split; [reflexivity|]. done.
Qed.

Lemma populated_lookups path first_page full_text :
  let m := populated path first_page full_text in
  m !! "introduction" = Some (safe_search INTRO_REGEX (lower full_text) "") /\
  m !! "conclusion" = Some (safe_search CONCLUSION_REGEX (lower full_text) "") /\
  m !! "abstract"
    = Some (if nonempty (found_abstract full_text)
            then found_abstract full_text
            else fallback_abstract full_text) /\
  m !! "title" = Some (strip (first_line first_page)) /\
  m !! "full_text" = Some (join " " (split full_text)) /\
  m !! "path" = Some path /\
  m !! "source" = Some "pdf_paper".
Proof.
  unfold populated, initial_metadata.
  destruct (nonempty (found_abstract full_text)); simpl;
    repeat split; by simplify_map_eq.
Qed.


(** C5.  When the path does not exist, or the PDF cannot be parsed,
    [extract_pdf_sections] returns (it does not raise) a record with an
    [error] entry that still carries the default fields: the path, the
    file name as title, empty sections and full text, and the source;
    nothing is written. *)
Theorem extract_pdf_sections_error_record env path fs :
  path_exists env path = false \/ unparseable env path ->
  exists r,
    extract_pdf_sections env path fs = (Ok r, fs) /\
    is_Some (r !! "error") /\
    carries_defaults path r.
Proof.
  intros H.
  assert (Hdefaults : forall msg,
             is_Some (<["error" := msg]> (initial_metadata path) !! "error") /\
             carries_defaults path (<["error" := msg]> (initial_metadata path))).
  { intros msg. unfold carries_defaults, initial_metadata.
    split; [eexists|repeat split]; by simplify_map_eq. }
  unfold extract_pdf_sections, extract_pdf_sections_body.
  destruct (path_exists env path) eqn:Hex.
  - destruct H as [H|H]; [done|].
    change (negb true) with false. cbv beta iota. unfold try_except.
    destruct (process_unparseable env path
                {| metadata := initial_metadata path; files := fs |} H)
      as [e ->].
    simpl. eexists. split; [reflexivity|]. apply Hdefaults.
  - simpl. eexists. split; [reflexivity|]. apply Hdefaults.
Qed.


(** C10, amended.  On a PDF whose pages all give their text, the
    introduction and the conclusion are what [safe_search] draws from
    the lowercased text, and so is the abstract when that is not empty;
    these are in lowercase form, that is [lower] leaves them as they are
    and none of the letters A to Z occurs in them, and where the pattern
    matches they are the cleaned slice of the lowercased text under
    group 1.  When the abstract so found is empty (no match, or a blank
    one), the abstract is the first 150 words of the text as extracted;
    the full text is the text as extracted with its whitespace
    normalised. *)
Theorem extract_pdf_sections_matched_lowercase env path fs t ts :
  path_exists env path = true ->
  pdf_open env path = Ok (map Ok (t :: ts)) ->
  let full_text := join nl (map (default "") (t :: ts)) in
  let found re := safe_search re (lower full_text) "" in
  exists r,
    fst (extract_pdf_sections env path fs) = Ok r /\
    (r !! "introduction" = Some (found INTRO_REGEX)
     /\ lowered (found INTRO_REGEX)
     /\ no_capital (found INTRO_REGEX)) /\
    (r !! "conclusion" = Some (found CONCLUSION_REGEX)
     /\ lowered (found CONCLUSION_REGEX)
     /\ no_capital (found CONCLUSION_REGEX)) /\
    (nonempty (found ABSTRACT_REGEX) = true ->
     r !! "abstract" = Some (found ABSTRACT_REGEX)
     /\ lowered (found ABSTRACT_REGEX)
     /\ no_capital (found ABSTRACT_REGEX)) /\
    (nonempty (found ABSTRACT_REGEX) = false ->
     r !! "abstract" = Some (join " " (take 150 (split full_text)))) /\
    r !! "full_text" = Some (join " " (split full_text)) /\
    (forall re m,
       search re (lower full_text) = Some m ->
       found re
       = join " " (split (strip (slice (lower full_text)
                                       (fst (span1 m)) (snd (span1 m)))))).
Proof.
  intros Hex Hopen full_text found.
  destruct (extract_pdf_sections_run env path t ts fs Hex Hopen)
    as (r & Hr & Hsame).
  fold full_text in Hsame.
  destruct (populated_lookups path (default "" t) full_text)
    as (Hi & Hc & Ha & _ & Hf & _ & _).
  assert (Hlow : forall re, lowered (found re)).
  { intros re. apply lowered_safe_search. }
  assert (Hcap : forall re, no_capital (found re)).
  { intros re. apply no_capital_safe_search. }
  exists r. split; [exact Hr|].
  rewrite !Hsame by done.
  split_and!; try done.
  - intros Hne. split; [|done]. rewrite Ha. unfold found_abstract.
    fold (found ABSTRACT_REGEX). by rewrite Hne.
  - intros Hne. rewrite Ha. unfold found_abstract. fold (found ABSTRACT_REGEX).
    by rewrite Hne.
  - intros re m Hm. by apply safe_search_slice.
Qed.

End PdfFacts.

Lemma extract_pdf_sections_error_record_witness :
  PdfScraper.path_exists Examples.no_file "paper.pdf" = false /\
  exists r,
    PdfScraper.extract_pdf_sections Examples.no_file "paper.pdf" []
    = (Py.Ok r, []) /\
    is_Some (r !! "error") /\
    PdfScraper.carries_defaults "paper.pdf" r.
Proof.
  split; [reflexivity|].
  apply (extract_pdf_sections_error_record Examples.no_file "paper.pdf" []).
  left. reflexivity.
Defined.


Lemma extract_pdf_sections_matched_lowercase_witness :
  exists r,
    fst (PdfScraper.extract_pdf_sections
           (Examples.one_page Examples.survey) "data/papers/survey.pdf" [])
    = Py.Ok r /\
    r !! "introduction" = Some "retrieval helps." /\
    r !! "abstract" = Some "we study rag.".
Proof.
  destruct (extract_pdf_sections_matched_lowercase
              (Examples.one_page Examples.survey) "data/papers/survey.pdf" []
              (Some Examples.survey) [] eq_refl eq_refl)
    as (r & Hr & [Hi _] & _ & Ha & _).
  exists r. split; [exact Hr|]. split; [exact Hi|].
  apply Ha. vm_compute. reflexivity.
Defined.

(** C10 as stated fails: the abstract pattern matches the lowercased text
    of [blank_abstract] with an empty group, and the abstract returned is
    the first-150-words fallback, which keeps the capitals of the
    document. *)
Lemma blank_abstract_match_keeps_capitals :
  is_Some (Re.search PdfScraper.ABSTRACT_REGEX
             (Text.lower Examples.blank_abstract)) /\
  exists r,
    fst (PdfScraper.extract_pdf_sections
           (Examples.one_page Examples.blank_abstract) "paper.pdf" [])
    = Py.Ok r /\
    r !! "abstract" = Some "Abstract Introduction Body" /\
    ~ Text.lowered "Abstract Introduction Body" /\
    ~ Text.no_capital "Abstract Introduction Body".
Proof.
  split; [vm_compute; by eexists|].
  eexists. split; [vm_compute; reflexivity|].
  split; [vm_compute; reflexivity|].
  split; [discriminate|].
  intros H. inversion H as [|c l Hc Hl]. discriminate Hc.
Qed.

(** ** The web crawler *)

Section WebFacts.
Import Text Py Py.Notations WebCrawler.

(** A failed request leaves the [try] block before anything is written. *)
Lemma fetch_failure_raises env url timeout fs e :
  fetch_failure env url timeout = Some e ->
  fetch env url timeout fs = (Raise e, fs).
Proof.
  unfold fetch_failure, fetch. unfold bind at 1. unfold call at 1.
  destruct (requests_get env url timeout USER_AGENT) as [r|e0].
  - unfold bind at 1. unfold raise_for_status, check.
    destruct (http_error r) as [msg|]; [|done].
    by intros [= <-].
  - by intros [= <-].
Qed.

Lemma fetch_page_text_failure env url timeout fs e :
  fetch_failure env url timeout = Some e ->
  fetch_page_text env url timeout fs
  = (Ok (error_record url
           ((if is_request_exception e then "Failed to fetch: "
             else "Unexpected error: ") ++ str e)), fs).
Proof.
  intros H. unfold fetch_page_text, try_except.
  rewrite (fetch_failure_raises _ _ _ _ _ H). simpl.
  by destruct (is_request_exception e).
Qed.

Lemma raw_path_ne_processed_path (doc_id : string) :
  raw_path doc_id <> processed_path doc_id.
Proof.
  unfold raw_path, processed_path, path_join.
  assert (Hne : (doc_id ++ "_raw.html")%string
                <> (doc_id ++ "_processed.json")%string).
  { intros H. apply (inj (String.app doc_id)) in H. discriminate H. }
  destruct doc_id as [|c d].
  - simpl. discriminate.
  - change (String c d ++ "_raw.html")%string
      with (String c (d ++ "_raw.html")) in *.
    change (String c d ++ "_processed.json")%string
      with (String c (d ++ "_processed.json")) in *.
    destruct c as [[] [] [] [] [] [] [] []]; try exact Hne;
      intros H; apply (inj (String.app RAW_DATA_DIR)) in H;
      apply (inj (String.app "/")) in H; contradiction.
Qed.

(** C7.  When the request fails -- [requests.get] raises, or
    [raise_for_status] raises for the status of the response --
    [fetch_page_text] returns (it does not raise) the record with
    exactly the fields [url], [title] (["ERROR"]), [text] (the failure
    message) and [source]; the message of a request exception is
    prefixed ["Failed to fetch: "]. *)
Theorem fetch_page_text_error_record env url timeout fs e :
  fetch_failure env url timeout = Some e ->
  exists r,
    fetch_page_text env url timeout fs = (Ok r, fs) /\
    r !! "url" = Some url /\
    r !! "title" = Some "ERROR" /\
    r !! "source" = Some "web_page" /\
    r !! "text"
      = Some ((if is_request_exception e then "Failed to fetch: "
               else "Unexpected error: ") ++ str e)%string /\
    dom r = ({["url"; "title"; "text"; "source"]} : gset string).
Proof.
  intros H. eexists. split; [by apply fetch_page_text_failure|].
  unfold error_record. split_and!; by simplify_map_eq.
Qed.

(** Markup that the parser rejects leaves the [try] block before anything
    is written, and the second handler answers. *)
Lemma fetch_page_text_rejected_markup env url timeout fs r e :
  requests_get env url timeout USER_AGENT = Ok r ->
  http_error r = None ->
  beautiful_soup env (text r) = Raise e ->
  fetch_page_text env url timeout fs
  = (Ok (error_record url
           ((if is_request_exception e then "Failed to fetch: "
             else "Unexpected error: ") ++ str e)), fs).
Proof.
  intros Hget Hstatus Hsoup.
  unfold fetch_page_text, try_except, fetch.
  unfold bind at 1. unfold call at 1. rewrite Hget.
  unfold bind at 1. unfold raise_for_status. rewrite Hstatus.
  unfold check at 1. unfold ret at 1.
  unfold bind at 1. unfold call at 1. rewrite Hsoup.
  simpl. by destruct (is_request_exception e).
Qed.

(** A request that succeeds, markup that parses and two files that open:
    the run of the whole function. *)
Lemma fetch_page_text_run env url timeout fs r soup :
  requests_get env url timeout USER_AGENT = Ok r ->
  http_error r = None ->
  beautiful_soup env (text r) = Ok soup ->
  let doc_id := doc_id_of env url (page_title env url soup) in
  let metadata : gmap string string :=
    <["url" := url]>
    (<["title" := page_title env url soup]>
    (<["date_fetched" := now_isoformat env]>
    (<["source" := "web_page"]>
    (<["text" := page_text soup]> ∅)))) in
  open_error env (raw_path doc_id) = None ->
  open_error env (processed_path doc_id) = None ->
  fetch_page_text env url timeout fs
  = (Ok metadata,
     fs ++ [ (raw_path doc_id, Files.Markup (text r));
             (processed_path doc_id, Files.Json metadata) ]).
Proof.
  intros Hget Hstatus Hsoup doc_id metadata Hraw Hproc.
  unfold fetch_page_text, try_except, fetch.
  unfold bind at 1. unfold call at 1. rewrite Hget.
  unfold bind at 1. unfold raise_for_status. rewrite Hstatus.
  unfold check at 1. unfold ret at 1.
  unfold bind at 1. unfold call at 1. rewrite Hsoup.
  fold doc_id.
  unfold bind at 1. unfold write_file at 1. unfold bind at 1.
  rewrite Hraw. unfold check at 1, ret at 1, modify at 1.
  unfold bind at 1. unfold write_file at 1. unfold bind at 1.
  rewrite Hproc. unfold check at 1, ret at 1, modify at 1.
  simpl. by rewrite <- app_assoc.
Qed.

(** C9, amended.  A call whose request succeeds, whose markup the parser
    accepts and whose two files can be opened and written writes exactly
    two files, the raw markup and then the processed record it returns,
    under two different paths.  A call whose request fails writes no
    file; nor
    does a call whose request succeeds but whose markup the parser
    rejects: it returns the error record with the parser's message
    after ["Unexpected error: "] (or ["Failed to fetch: "], were the
    exception a request exception). *)
Theorem fetch_page_text_writes env url timeout fs :
  (forall r soup,
     requests_get env url timeout USER_AGENT = Ok r ->
     http_error r = None ->
     beautiful_soup env (text r) = Ok soup ->
     let doc_id := doc_id_of env url (page_title env url soup) in
     open_error env (raw_path doc_id) = None ->
     open_error env (processed_path doc_id) = None ->
     exists record,
       fetch_page_text env url timeout fs
       = (Ok record,
          fs ++ [ (raw_path doc_id, Files.Markup (text r));
                  (processed_path doc_id, Files.Json record) ]) /\
       raw_path doc_id <> processed_path doc_id) /\
  (forall e,
     fetch_failure env url timeout = Some e ->
     snd (fetch_page_text env url timeout fs) = fs) /\
  (forall r e,
     requests_get env url timeout USER_AGENT = Ok r ->
     http_error r = None ->
     beautiful_soup env (text r) = Raise e ->
     fetch_page_text env url timeout fs
     = (Ok (error_record url
              ((if is_request_exception e then "Failed to fetch: "
                else "Unexpected error: ") ++ str e)), fs)).
Proof.
  split_and!.
  - intros r soup Hget Hstatus Hsoup doc_id Hraw Hproc.
    eexists. split; [|apply raw_path_ne_processed_path].
    by apply fetch_page_text_run.
  - intros e H. by rewrite (fetch_page_text_failure _ _ _ _ _ H).
  - intros r e. apply fetch_page_text_rejected_markup.
Qed.

End WebFacts.

Lemma fetch_page_text_error_record_witness :
  WebCrawler.fetch_failure Examples.offline "https://example.com/a" 15
  = Some (Py.RequestException "Read timed out.") /\
  exists r,
    WebCrawler.fetch_page_text Examples.offline "https://example.com/a" 15 []
    = (Py.Ok r, []) /\
    r !! "title" = Some "ERROR" /\
    r !! "text" = Some "Failed to fetch: Read timed out.".
Proof.
  split; [reflexivity|].
  destruct (fetch_page_text_error_record Examples.offline
              "https://example.com/a" 15 []
              (Py.RequestException "Read timed out.") eq_refl)
    as (r & Hr & _ & Ht & _ & Hx & _).
  exists r. split; [exact Hr|]. split; [exact Ht|exact Hx].
Defined.

Lemma fetch_page_text_writes_witness :
  (exists record,
     WebCrawler.fetch_page_text Examples.online "https://example.com/a" 15 []
     = (Py.Ok record,
        [ ("data/raw_web/rag_notes_-1234567_raw.html",
           Files.Markup "<html>...</html>");
          ("data/raw_web/rag_notes_-1234567_processed.json",
           Files.Json record) ])) /\
  WebCrawler.fetch_page_text Examples.malformed "https://example.com/a" 15 []
  = (Py.Ok (WebCrawler.error_record "https://example.com/a"
              "Unexpected error: markup rejected by the parser"), []).
Proof.
  split.
  - destruct (fetch_page_text_writes Examples.online
                "https://example.com/a" 15 []) as [H _].
    destruct (H _ _ eq_refl eq_refl eq_refl eq_refl eq_refl)
      as (record & Hrun & _).
    exists record. exact Hrun.
  - destruct (fetch_page_text_writes Examples.malformed
                "https://example.com/a" 15 []) as (_ & _ & H).
    exact (H _ _ eq_refl eq_refl eq_refl).
Defined.

(** C9 as stated fails: when the request times out, the call writes no
    file. *)
Lemma fetch_page_text_offline_writes_nothing :
  snd (WebCrawler.fetch_page_text Examples.offline "https://example.com/a" 15 [])
  = [] /\
  length (snd (WebCrawler.fetch_page_text
                 Examples.offline "https://example.com/a" 15 [])) <> 2.
Proof. split; [reflexivity | vm_compute; lia]. Qed.

(** ** The chunker *)

Section ChunkFacts.
Import Text Utils.

Variable split_text : SplitText.

Local Abbreviation splitter := (get_text_splitter CHUNK_SIZE CHUNK_OVERLAP).

Lemma bulk_field (k : string) :
  k ∈ ["text"; "full_text"] <-> k = "text" \/ k = "full_text".
Proof.
  rewrite !elem_of_cons, elem_of_nil. tauto.
Qed.

Lemma chunk_metadata_lookup (doc : gmap string string) (k : string) :
  chunk_metadata doc !! k
  = if bool_decide (k = "text" \/ k = "full_text") then None else doc !! k.
Proof.
  unfold chunk_metadata. case_bool_decide as Hd.
  - apply map_lookup_filter_None. right. intros v _ Hn.
    apply Hn. by apply bulk_field.
  - destruct (doc !! k) as [v|] eqn:Hk.
    + apply map_lookup_filter_Some. split; [done|].
      intros Hin. by apply Hd, bulk_field.
    + apply map_lookup_filter_None. by left.
Qed.

Lemma chunk_metadata_delete (doc : gmap string string) :
  chunk_metadata doc = delete "text" (delete "full_text" doc).
Proof.
  apply map_eq. intros k. rewrite chunk_metadata_lookup.
  case_bool_decide as Hd.
  - destruct Hd as [->| ->]; by simplify_map_eq.
  - rewrite !lookup_delete_ne; [done|..]; intros <-; apply Hd; auto.
Qed.

Lemma select_nonempty_spec (doc : gmap string string) :
  (truthy (py_or (doc !! "full_text") (doc !! "text")) = true ->
   select_nonempty doc = py_or (doc !! "full_text") (doc !! "text")) /\
  (truthy (py_or (doc !! "full_text") (doc !! "text")) = false ->
   select_nonempty doc = None).
Proof.
  unfold select_nonempty, py_or, truthy.
  destruct (doc !! "full_text") as [f|]; destruct (doc !! "text") as [t|];
    try destruct f; try destruct t; simpl; split; congruence.
Qed.

Lemma add_document_chunks chunks (doc : gmap string string) :
  add_document split_text splitter chunks doc
  = chunks ++ chunks_of split_text doc.
Proof.
  unfold add_document, chunks_of.
  destruct (select_nonempty_spec doc) as [Hyes Hno].
  destruct (truthy (py_or (doc !! "full_text") (doc !! "text"))) eqn:Ht.
  - rewrite (Hyes eq_refl). simpl.
    destruct (py_or (doc !! "full_text") (doc !! "text")) as [t|]; [|done].
    unfold split_documents. simpl.
    by rewrite app_nil_r, chunk_metadata_delete.
  - rewrite (Hno eq_refl). simpl. by rewrite app_nil_r.
Qed.

Lemma fold_add_document docs chunks :
  fold_left (add_document split_text splitter) docs chunks
  = chunks ++ flat_map (chunks_of split_text) docs.
Proof.
  revert chunks. induction docs as [|doc docs IH]; intros chunks; simpl.
  - by rewrite app_nil_r.
  - by rewrite IH, add_document_chunks, <- app_assoc.
Qed.

Lemma split_text_into_chunks_flat_map docs :
  split_text_into_chunks split_text docs
  = flat_map (chunks_of split_text) docs.
Proof. unfold split_text_into_chunks. by rewrite fold_add_document. Qed.

Lemma chunk_origin docs c :
  In c (split_text_into_chunks split_text docs) ->
  exists doc t,
    In doc docs /\ select_nonempty doc = Some t /\
    In (page_content c) (split_text splitter t) /\
    metadata c = delete "text" (delete "full_text" doc).
Proof.
  rewrite split_text_into_chunks_flat_map. intros Hc.
  apply in_flat_map in Hc as (doc & Hdoc & Hc).
  unfold chunks_of in Hc.
  destruct (select_nonempty doc) as [t|] eqn:Hsel; [|done].
  apply in_map_iff in Hc as (piece & <- & Hpiece).
  by exists doc, t.
Qed.


(** C8, amended.  For each record, in order, [split_text_into_chunks]
    takes the [full_text] field if it is present and not empty, else the
    [text] field if it is present and not empty, and skips the record
    otherwise; every chunk it produces carries the parent record's
    fields other than [text] and [full_text], and only those. *)
Theorem split_text_into_chunks_selection docs :
  split_text_into_chunks split_text docs
  = flat_map (chunks_of split_text) docs /\
  forall c,
    In c (split_text_into_chunks split_text docs) ->
    exists doc t,
      In doc docs /\
      select_nonempty doc = Some t /\
      In (page_content c) (split_text splitter t) /\
      forall k,
        metadata c !! k
        = if bool_decide (k = "text" \/ k = "full_text") then None
          else doc !! k.
Proof.
  split; [apply split_text_into_chunks_flat_map|].
  intros c Hc.
  destruct (chunk_origin docs c Hc) as (doc & t & Hdoc & Hsel & Hpiece & Hmeta).
  exists doc, t. split_and!; try done.
  intros k. by rewrite Hmeta, <- chunk_metadata_delete, chunk_metadata_lookup.
Qed.

End ChunkFacts.

Lemma split_text_into_chunks_selection_witness :
  exists doc t,
    In doc [Examples.web_record] /\
    Utils.select_nonempty doc = Some t /\
    forall k,
      (<["url" := "https://example.com/a"]>
         (<["title" := "RAG Notes"]> (<["source" := "web_page"]> ∅))
       : gmap string string) !! k
      = if bool_decide (k = "text" \/ k = "full_text") then None else doc !! k.
Proof.
  destruct (split_text_into_chunks_selection
              Examples.by_words [Examples.web_record]) as [_ H].
  destruct (H {| Utils.page_content := "RAG";
                 Utils.metadata :=
                   <["url" := "https://example.com/a"]>
                     (<["title" := "RAG Notes"]> (<["source" := "web_page"]> ∅)) |})
    as (doc & t & Hdoc & Hsel & _ & Hmeta).
  { vm_compute. left. reflexivity. }
  exists doc, t. split; [exact Hdoc|]. split; [exact Hsel|]. exact Hmeta.
Defined.

(** C8 as stated fails: in [empty_full_text] the [full_text] field is
    present, so the claim selects it; it is empty, and the code passes it
    over and cuts the [text] field instead. *)
Lemma present_but_empty_full_text_is_passed_over :
  Utils.select_present Examples.empty_full_text = Some "" /\
  Examples.by_words (Utils.get_text_splitter Utils.CHUNK_SIZE Utils.CHUNK_OVERLAP) ""
  = [] /\
  map Utils.page_content
      (Utils.split_text_into_chunks Examples.by_words [Examples.empty_full_text])
  = ["hello"].
Proof. split_and!; vm_compute; reflexivity. Qed.

(** ** Citations *)

Section CitationFacts.
Import Text Utils StreamlitApp.

Lemma elem_of_fold_citations (docs : list Document)
    (acc : gset (string * string * string)) (c : string * string * string) :
  c ∈ fold_left (fun acc doc => acc ∪ {[ citation doc ]}) docs acc
  <-> c ∈ acc \/ exists d, In d docs /\ c = citation d.
Proof.
  revert acc. induction docs as [|d docs IH]; intros acc; simpl.
  - split; [by left|].
    intros [H|H]; [done|]. by destruct H as (d & [] & _).
  - rewrite IH, elem_of_union, elem_of_singleton. split.
    + intros [[H | ->] | (d' & Hd' & ->)]; [by left| |]; right.
      * exists d. by split; [left|].
      * exists d'. by split; [right|].
    + intros [H | (d' & [<- | Hd'] & ->)]; [by left; left|by left; right|].
      right. by exists d'.
Qed.

Lemma elem_of_unique_sources (docs : list Document)
    (c : string * string * string) :
  c ∈ unique_sources docs <-> exists d, In d docs /\ c = citation d.
Proof.
  unfold unique_sources. rewrite elem_of_fold_citations.
  split; [|by right].
  intros [H|H]; [|done]. by apply not_elem_of_empty in H.
Qed.

(** The chunks of one record carry the record's provenance, piece by
    piece. *)
Lemma chunks_of_provenance (split_text : SplitText)
    (doc : gmap string string) :
  map page_content (chunks_of split_text doc)
  = match select_nonempty doc with
    | Some t => split_text (get_text_splitter CHUNK_SIZE CHUNK_OVERLAP) t
    | None => []
    end /\
  Forall (fun c =>
            metadata c !! "title" = doc !! "title" /\
            metadata c !! "source" = doc !! "source" /\
            metadata c !! "url" = doc !! "url" /\
            metadata c !! "path" = doc !! "path")
         (chunks_of split_text doc).
Proof.
  unfold chunks_of. destruct (select_nonempty doc) as [t|]; [|by split].
  split.
  - rewrite map_map. simpl. apply map_id.
  - apply Forall_forall. intros c Hc.
    apply list_elem_of_In, in_map_iff in Hc as (piece & <- & _). simpl.
    by rewrite !lookup_delete_ne.
Qed.

(** The run of the chat on a query that is answered. *)
Lemma chat_answered (env : StreamlitApp.Env) (chain : RagPipeline.RetrievalQA)
    (p answer : string) (docs : list Document) (t : RagPipeline.trace) :
  nonempty p = true ->
  invoke env p = Py.Ok (answer, docs) ->
  chat env (Some chain) (Some p) t
  = (Py.Ok tt,
     t ++ [RagPipeline.StMarkdown p; RagPipeline.Invoke p;
           RagPipeline.StMarkdown
             ("**" ++ answer ++ "**" ++ nl ++ nl ++ "---" ++ nl ++ nl
              ++ sources_header ++ join "" (source_lines docs))]).
Proof.
  intros Hp Hok. unfold chat, truthy. rewrite Hp. simpl default.
  unfold Py.try_except, Py.bind, RagPipeline.does, Py.modify, Py.call.
  rewrite Hok. simpl. by rewrite <- !app_assoc.
Qed.

(** C3.  The chunks are cut record by record, in order: the chunks of a
    record are the pieces of the text selected from it, and each has the
    [title], [source], [url] and [path] entries of that record, so
    whatever provenance the record carries its chunks carry too.  For a
    query that is answered, the page shows under the answer the heading
    of the sources and one line per citation of the retrieved documents:
    every retrieved document has its line, every line is that of a
    retrieved document, and the line reads
    ["- **title** (source): `url`"] with the document's title, or
    ["Untitled Document"] when it has none, its source, or
    ["Unknown Source"], and its url, else its path, else ["N/A"]. *)
Theorem provenance_retained_and_shown (split_text : SplitText)
    (docs : list (gmap string string)) (retrieved : list Document) :
  let splitter := get_text_splitter CHUNK_SIZE CHUNK_OVERLAP in
  let same_provenance (doc : gmap string string) (c : Document) :=
    metadata c !! "title" = doc !! "title" /\
    metadata c !! "source" = doc !! "source" /\
    metadata c !! "url" = doc !! "url" /\
    metadata c !! "path" = doc !! "path" in
  let line_of (d : Document) :=
    ("- **"
     ++ match metadata d !! "title" with
        | Some title => title
        | None => "Untitled Document"
        end
     ++ "** ("
     ++ match metadata d !! "source" with
        | Some source => source
        | None => "Unknown Source"
        end
     ++ "): `"
     ++ match metadata d !! "url", metadata d !! "path" with
        | Some url, _ => url
        | None, Some path => path
        | None, None => "N/A"
        end
     ++ "`" ++ nl)%string in
  (exists per_record : list (list Document),
     split_text_into_chunks split_text docs = concat per_record /\
     Forall2 (fun doc cs =>
                map page_content cs
                = match select_nonempty doc with
                  | Some t => split_text splitter t
                  | None => []
                  end /\
                Forall (same_provenance doc) cs)
             docs per_record) /\
  (forall c,
     In c (split_text_into_chunks split_text docs) ->
     exists doc t,
       In doc docs /\
       select_nonempty doc = Some t /\
       In (page_content c) (split_text splitter t) /\
       same_provenance doc c) /\
  (forall d,
     In d retrieved ->
     citation d ∈ unique_sources retrieved /\
     In (line_of d) (source_lines retrieved)) /\
  (forall line,
     In line (source_lines retrieved) ->
     exists d, In d retrieved /\ line = line_of d) /\
  (forall (env : StreamlitApp.Env) chain prompt answer t,
     nonempty prompt = true ->
     invoke env prompt = Py.Ok (answer, retrieved) ->
     chat env (Some chain) (Some prompt) t
     = (Py.Ok tt,
        t ++ [RagPipeline.StMarkdown prompt; RagPipeline.Invoke prompt;
              RagPipeline.StMarkdown
                ("**" ++ answer ++ "**" ++ nl ++ nl ++ "---" ++ nl ++ nl
                 ++ "### 📚 Sources Used" ++ nl ++ nl
                 ++ join "" (source_lines retrieved))])).
Proof.
  intros splitter same_provenance line_of.
  assert (Hline : forall d, source_line (citation d) = line_of d).
  { intros d. unfold line_of, source_line, citation, get_or.
    by destruct (metadata d !! "title"), (metadata d !! "source"),
         (metadata d !! "url"), (metadata d !! "path"). }
  split_and!.
  - exists (map (chunks_of split_text) docs). split.
    + rewrite split_text_into_chunks_flat_map. apply flat_map_concat_map.
    + apply Forall2_fmap_r, Forall_Forall2_diag, Forall_forall.
      intros doc _. apply chunks_of_provenance.
  - intros c Hc.
    destruct (chunk_origin split_text docs c Hc)
      as (doc & t & Hdoc & Hsel & Hpiece & Hmeta).
    exists doc, t. split_and!; try done.
    unfold same_provenance. rewrite Hmeta.
    by rewrite !lookup_delete_ne.
  - intros d Hd.
    assert (Hin : citation d ∈ unique_sources retrieved).
    { apply elem_of_unique_sources. by exists d. }
    split; [done|]. rewrite <- Hline. unfold source_lines.
    apply in_map, list_elem_of_In. by apply elem_of_elements.
  - intros line Hl. unfold source_lines in Hl.
    apply in_map_iff in Hl as (c & <- & Hc).
    apply list_elem_of_In, elem_of_elements, elem_of_unique_sources in Hc
      as (d & Hd & ->).
    exists d. by rewrite Hline.
  - intros env chain prompt answer t Hp Hok.
    by rewrite (chat_answered env chain prompt answer retrieved t Hp Hok).
Qed.

End CitationFacts.

Lemma provenance_retained_and_shown_witness :
  let chunk :=
    {| Utils.page_content := "RAG";
       Utils.metadata :=
         <["url" := "https://example.com/a"]>
           (<["title" := "RAG Notes"]> (<["source" := "web_page"]> ∅)) |} in
  let bare := {| Utils.page_content := "RAG"; Utils.metadata := ∅ |} in
  In chunk (Utils.split_text_into_chunks Examples.by_words [Examples.web_record])
  /\ (exists doc,
        In doc [Examples.web_record] /\
        Utils.metadata chunk !! "title" = doc !! "title" /\
        Utils.metadata chunk !! "source" = doc !! "source" /\
        Utils.metadata chunk !! "url" = doc !! "url")
  /\ In ("- **RAG Notes** (web_page): `https://example.com/a`" ++ Text.nl)%string
        (StreamlitApp.source_lines [chunk; bare])
  /\ In ("- **Untitled Document** (Unknown Source): `N/A`" ++ Text.nl)%string
        (StreamlitApp.source_lines [chunk; bare]).
Proof.
  intros chunk bare.
  assert (Hin : In chunk (Utils.split_text_into_chunks
                            Examples.by_words [Examples.web_record])).
  { vm_compute. left. reflexivity. }
  destruct (provenance_retained_and_shown
              Examples.by_words [Examples.web_record] [chunk; bare])
    as (_ & Hkept & Hshown & _ & _).
  split; [exact Hin|].
  split.
  { destruct (Hkept chunk Hin) as (doc & t & Hdoc & _ & _ & Ht & Hs & Hu & _).
    exists doc. split; [exact Hdoc|]. split; [exact Ht|].
    split; [exact Hs | exact Hu]. }
  split.
  - exact (proj2 (Hshown chunk (or_introl eq_refl))).
  - exact (proj2 (Hshown bare (or_intror (or_introl eq_refl)))).
Defined.

(** ** The vector store *)

Section StoreFacts.
Import Py Py.Notations Utils VectorStore.

Lemma length_new_entries (first : nat) (chunks : list Document) :
  length (new_entries first chunks) = length chunks.
Proof.
  revert first. induction chunks as [|c chunks IH]; intros first; simpl;
    [done | by rewrite IH].
Qed.

Lemma documents_of_new_entries (first : nat) (chunks : list Document) :
  map document (new_entries first chunks) = chunks.
Proof.
  revert first. induction chunks as [|c chunks IH]; intros first; simpl;
    [done | by rewrite IH].
Qed.

(** Deleting the ids of all entries leaves none. *)
Lemma delete_all (entries : list Entry) :
  List.filter
    (fun e => negb (bool_decide (entry_id e ∈ map entry_id entries)))
    entries = [].
Proof.
  assert (H : forall ids : list nat,
             (forall e, In e entries -> entry_id e ∈ ids) ->
             List.filter (fun e => negb (bool_decide (entry_id e ∈ ids)))
                         entries = []).
  { intros ids. induction entries as [|e entries IH]; intros Hids; [done|].
    simpl. rewrite bool_decide_eq_true_2 by (apply Hids; by left).
    simpl. apply IH. intros e' He'. apply Hids. by right. }
  apply H. intros e He. apply list_elem_of_In, in_map, He.
Qed.

Lemma guarded_ok (err : Chroma -> option exn) (db : Chroma) :
  err db = None -> guarded err db = (Ok tt, db).
Proof. intros H. unfold guarded, bind, get, check. by rewrite H. Qed.

Lemma guarded_raise (err : Chroma -> option exn) (db : Chroma) (e : exn) :
  err db = Some e -> guarded err db = (Raise e, db).
Proof. intros H. unfold guarded, bind, get, check. by rewrite H. Qed.

(** On a store whose calls all return, the [try] block leaves an empty
    collection. *)
Lemma wipe_run env db :
  reliable env ->
  exists db',
    wipe env db = (Ok tt, db') /\
    collection db' = [] /\ next_id db' = next_id db.
Proof.
  intros (_ & Hget & Hdel & _ & Hper).
  unfold wipe, vdb_get. unfold bind at 1. unfold bind at 1.
  rewrite (guarded_ok _ _ (Hget db)). unfold bind at 1, get at 1, ret at 1.
  destruct (collection db) as [|e entries] eqn:Hcoll; simpl map.
  - exists db. by rewrite Hcoll.
  - remember (map entry_id (e :: entries)) as ids eqn:Hids.
    destruct ids as [|i ids]; [discriminate Hids|].
    cbv beta iota. unfold vdb_delete. unfold bind at 1. unfold bind at 1.
    rewrite (guarded_ok _ _ (Hdel _ db)). unfold modify at 1.
    unfold vdb_persist, bind. rewrite (guarded_ok _ _ (Hper _)).
    unfold modify. eexists. split; [reflexivity|]. simpl.
    split; [|done]. rewrite Hcoll, Hids. apply (delete_all (e :: entries)).
Qed.

(** The run of [create_vector_store] on a store whose calls all return. *)
Lemma create_vector_store_run env chunks db :
  reliable env ->
  create_vector_store env chunks db
  = (Ok tt,
     {| collection := new_entries (next_id db) chunks;
        persisted := new_entries (next_id db) chunks;
        next_id := next_id db + length chunks |}).
Proof.
  intros Hrel.
  destruct (wipe_run env db Hrel) as (db' & Hwipe & Hcoll & Hnext).
  destruct Hrel as (Hopen & _ & _ & Hadd & Hper).
  unfold create_vector_store, open_store. unfold bind at 1.
  rewrite (guarded_ok _ _ (Hopen db)). unfold bind at 1.
  unfold try_except. rewrite Hwipe.
  unfold vdb_add_documents. unfold bind at 1. unfold bind at 1.
  rewrite (guarded_ok _ _ (Hadd _ db')). unfold modify at 1.
  unfold vdb_persist, bind. rewrite (guarded_ok _ _ (Hper _)).
  unfold modify. simpl. by rewrite Hcoll, Hnext.
Qed.

(** The [try] block fails before it has deleted anything when [get()]
    raises, or when [delete()] does. *)
Lemma wipe_fails env db e :
  get_error env db = Some e \/
  (get_error env db = None /\ collection db <> [] /\
   delete_error env (map entry_id (collection db)) db = Some e) ->
  wipe env db = (Raise e, db).
Proof.
  unfold wipe, vdb_get. unfold bind at 1. unfold bind at 1.
  intros [Hget|(Hget & Hne & Hdel)].
  - by rewrite (guarded_raise _ _ _ Hget).
  - rewrite (guarded_ok _ _ Hget). unfold bind at 1, get at 1, ret at 1.
    remember (map entry_id (collection db)) as ids eqn:Hids.
    destruct ids as [|i ids].
    + by destruct (collection db).
    + cbv beta iota. unfold vdb_delete. unfold bind at 1. unfold bind at 1.
      by rewrite (guarded_raise _ _ _ Hdel).
Qed.

(** When the [try] block fails so, the handler lets the function go on:
    the chunks are added to a collection that still has all its entries. *)
Lemma create_vector_store_wipe_fails env chunks db e :
  open_error env db = None ->
  get_error env db = Some e \/
  (get_error env db = None /\ collection db <> [] /\
   delete_error env (map entry_id (collection db)) db = Some e) ->
  (forall db', add_error env chunks db' = None) ->
  (forall db', persist_error env db' = None) ->
  create_vector_store env chunks db
  = (Ok tt,
     {| collection := collection db ++ new_entries (next_id db) chunks;
        persisted := collection db ++ new_entries (next_id db) chunks;
        next_id := next_id db + length chunks |}).
Proof.
  intros Hopen Hfail Hadd Hper.
  unfold create_vector_store, open_store. unfold bind at 1.
  rewrite (guarded_ok _ _ Hopen). unfold bind at 1.
  unfold try_except. rewrite (wipe_fails env db e Hfail). simpl.
  unfold vdb_add_documents. unfold bind at 1. unfold bind at 1.
  rewrite (guarded_ok _ _ (Hadd db)). unfold modify at 1.
  unfold vdb_persist, bind. rewrite (guarded_ok _ _ (Hper _)).
  by unfold modify.
Qed.

(** C1, amended.  When no call on the store raises,
    [create_vector_store] rebuilds the collection: it returns with the
    collection holding one new entry per supplied chunk, in order, and
    nothing else, and with the collection persisted; so a second run
    over the same chunks leaves as many entries as the first.  When
    enumerating or deleting the existing entries raises, the error is
    swallowed and the chunks are added to the entries already there. *)
Theorem create_vector_store_rebuilds env chunks db :
  (reliable env ->
   let run1 := create_vector_store env chunks db in
   let run2 := create_vector_store env chunks (snd run1) in
   fst run1 = Ok tt /\
   map document (collection (snd run1)) = chunks /\
   collection (snd run1) = new_entries (next_id db) chunks /\
   persisted (snd run1) = collection (snd run1) /\
   length (collection (snd run1)) = length chunks /\
   fst run2 = Ok tt /\
   map document (collection (snd run2)) = chunks /\
   length (collection (snd run2)) = length (collection (snd run1))) /\
  (forall e,
     open_error env db = None ->
     get_error env db = Some e \/
     (get_error env db = None /\ collection db <> [] /\
      delete_error env (map entry_id (collection db)) db = Some e) ->
     (forall db', add_error env chunks db' = None) ->
     (forall db', persist_error env db' = None) ->
     let run := create_vector_store env chunks db in
     fst run = Ok tt /\
     collection (snd run) = collection db ++ new_entries (next_id db) chunks).
Proof.
  split.
  - intros Hrel run1 run2. subst run2 run1.
    rewrite (create_vector_store_run env chunks db Hrel). simpl.
    rewrite (create_vector_store_run env chunks _ Hrel). simpl.
    rewrite !documents_of_new_entries, !length_new_entries. done.
  - intros e Hopen Hfail Hadd Hper run. subst run.
    by rewrite (create_vector_store_wipe_fails env chunks db e).
Qed.

End StoreFacts.

Lemma create_vector_store_rebuilds_witness :
  VectorStore.reliable VectorStore.no_faults /\
  length (VectorStore.collection
            (snd (VectorStore.create_vector_store VectorStore.no_faults
                    Examples.two_chunks Examples.indexed)))
  = 2.
Proof.
  assert (Hrel : VectorStore.reliable VectorStore.no_faults).
  { by unfold VectorStore.reliable. }
  split; [exact Hrel|].
  destruct (create_vector_store_rebuilds VectorStore.no_faults
              Examples.two_chunks Examples.indexed) as [H _].
  destruct (H Hrel) as (_ & _ & _ & _ & Hlen & _).
  exact Hlen.
Defined.

(** C1 as stated fails: on a store whose [get()] raises, the call returns
    with the entry that was there still in the collection, and a second
    run over the same chunks leaves more entries than the first. *)
Lemma create_vector_store_keeps_entries_when_get_raises :
  let run1 := VectorStore.create_vector_store Examples.get_raises
                Examples.two_chunks Examples.indexed in
  let run2 := VectorStore.create_vector_store Examples.get_raises
                Examples.two_chunks (snd run1) in
  fst run1 = Py.Ok tt /\
  fst run2 = Py.Ok tt /\
  In Examples.old_entry (VectorStore.collection (snd run1)) /\
  length (VectorStore.collection (snd run1)) = 3 /\
  length (VectorStore.collection (snd run2)) = 5.
Proof. vm_compute. split_and!; try reflexivity. by left. Qed.

(** ** The answer chain and the query page *)

Section ChainFacts.
Import Py Py.Notations Utils VectorStore RagPipeline StreamlitApp.

(** A value is truthy when it is there and is not the empty string. *)
Lemma truthy_spec (v : option string) :
  truthy v = true <-> exists x, v = Some x /\ x <> "".
Proof.
  destruct v as [[|c x]|]; simpl; split; try done.
  - by intros (x & [= <-] & Hx).
  - intros _. by eexists.
  - by intros (x & [=] & _).
Qed.

(** Without the index directory [build_rag_chain] stops at the check of
    the path, or before it. *)
Lemma build_rag_chain_no_index (env : RagPipeline.Env) :
  chroma_db_exists env = false ->
  build_rag_chain env []
  = (Raise (match embedding_error env with
            | Some e => e
            | None => FileNotFoundError not_found_message
            end),
     [GetEmbeddingFunction]).
Proof.
  intros Hdb. unfold build_rag_chain. unfold bind at 1. unfold does at 1.
  unfold modify at 1. simpl app. unfold bind at 1.
  destruct (embedding_error env) as [e|]; [done|].
  unfold check at 1, ret at 1. unfold bind at 1. by rewrite Hdb.
Qed.

Lemma load_rag_chain_no_index (env : StreamlitApp.Env) :
  chroma_db_exists (pipeline env) = false ->
  load_rag_chain env []
  = (Ok None,
     [if truthy (GROQ_API_KEY env) then StWarning missing_db_message
      else StError key_message]).
Proof.
  intros Hdb. unfold load_rag_chain.
  destruct (truthy (GROQ_API_KEY env)); simpl; [|done].
  by rewrite Hdb.
Qed.

(** C4, amended.  When the index directory does not exist,
    [build_rag_chain] raises before it opens the store and without
    having initialised the language model: loading the embedding
    function is all it has done, and what it raises is the
    file-not-found error unless loading the embedding function has
    raised already.  On the query page no chain is loaded, the script
    stops, and no language-model call is attempted; the page shows the
    index-not-found warning when [GROQ_API_KEY] is set to a value that
    is not empty, and the missing-credential error when it is unset or
    empty. *)
Theorem missing_index_stops_before_language_model
    (env : StreamlitApp.Env) (prompt : option string) :
  chroma_db_exists (pipeline env) = false ->
  let built := build_rag_chain (pipeline env) [] in
  let page := script env prompt [] in
  (forall chain, fst built <> Ok chain) /\
  snd built = [GetEmbeddingFunction] /\
  Forall (fun a => attempts_language_model a = false) (snd built) /\
  (embedding_error (pipeline env) = None ->
   fst built = Raise (FileNotFoundError not_found_message)) /\
  fst (load_rag_chain env []) = Ok None /\
  fst page = Ok tt /\
  Forall (fun a => attempts_language_model a = false) (snd page) /\
  (truthy (GROQ_API_KEY env) = true ->
   snd page = [StWarning missing_db_message; StStop]) /\
  (truthy (GROQ_API_KEY env) = false ->
   snd page = [StError key_message; StStop]) /\
  (truthy (GROQ_API_KEY env) = true <->
   exists key, GROQ_API_KEY env = Some key /\ key <> "").
Proof.
  intros Hdb built page. subst built page.
  unfold script, bind.
  rewrite (build_rag_chain_no_index _ Hdb), (load_rag_chain_no_index _ Hdb).
  simpl. split_and!; try done.
  - by repeat constructor.
  - by intros ->.
  - destruct (truthy (GROQ_API_KEY env)); by repeat constructor.
  - by intros ->.
  - by intros ->.
  - apply truthy_spec.
Qed.

End ChainFacts.

Lemma missing_index_stops_before_language_model_witness :
  RagPipeline.chroma_db_exists (StreamlitApp.pipeline Examples.key_no_index)
  = false /\
  snd (RagPipeline.build_rag_chain
         (StreamlitApp.pipeline Examples.key_no_index) [])
  = [RagPipeline.GetEmbeddingFunction] /\
  snd (StreamlitApp.script Examples.key_no_index (Some "What does RAG combine?") [])
  = [RagPipeline.StWarning StreamlitApp.missing_db_message; RagPipeline.StStop].
Proof.
  split; [reflexivity|].
  destruct (missing_index_stops_before_language_model
              Examples.key_no_index (Some "What does RAG combine?") eq_refl)
    as (_ & Hbuilt & _ & _ & _ & _ & _ & H & _).
  split; [exact Hbuilt|].
  apply H. reflexivity.
Defined.

(** C4 as stated fails: with no index and no credential, the page reports
    the missing credential and never the missing index. *)
Lemma missing_index_without_key_reports_the_key :
  RagPipeline.chroma_db_exists (StreamlitApp.pipeline Examples.no_key_no_index)
  = false /\
  snd (StreamlitApp.script Examples.no_key_no_index
         (Some "What does RAG combine?") [])
  = [RagPipeline.StError StreamlitApp.key_message; RagPipeline.StStop] /\
  ~ In (RagPipeline.StWarning StreamlitApp.missing_db_message)
       (snd (StreamlitApp.script Examples.no_key_no_index
               (Some "What does RAG combine?") [])).
Proof.
  split_and!; [reflexivity..|].
  vm_compute. intros [H|[H|[]]]; discriminate H.
Qed.

(** ** Words, whitespace and replacement *)

Section WordFacts.
Import Text Shape.

Lemma split_go_word (w cur rest : list ascii) :
  Forall (fun c => isspace c = false) w ->
  split_go cur (w ++ rest) = split_go (rev w ++ cur) rest.
Proof.
  intros Hw. revert cur. induction Hw as [|c w Hc Hw IH]; intros cur; [done|].
  simpl. rewrite Hc, IH. by rewrite <- app_assoc.
Qed.

Lemma split_go_words (l cur : list ascii) :
  Forall (fun c => isspace c = false) cur ->
  Forall (fun w => w <> [] /\ Forall (fun c => isspace c = false) w)
         (split_go cur l).
Proof.
  revert cur. induction l as [|c l IH]; intros cur Hcur; simpl.
  - destruct cur as [|a cur]; [constructor|].
    constructor; [|constructor]. split; [|by apply Forall_rev].
    simpl. by destruct (rev cur).
  - destruct (isspace c) eqn:Hc.
    + destruct cur as [|a cur]; [by apply IH|].
      constructor; [|by apply IH]. split; [|by apply Forall_rev].
      simpl. by destruct (rev cur).
    + apply IH. by constructor.
Qed.

(** The pieces of [s.split()] are words. *)
Lemma split_words (s : string) : Forall is_word (split s).
Proof.
  unfold split. apply Forall_fmap.
  eapply Forall_impl; [apply (split_go_words (chars s) []); constructor|].
  intros w [Hne Hw]. unfold is_word. simpl. by rewrite chars_of_chars.
Qed.

Lemma split_go_end (cur : list ascii) :
  cur <> [] -> split_go cur [] = [rev cur].
Proof. by destruct cur. Qed.

Lemma split_go_space (cur rest : list ascii) :
  cur <> [] -> split_go cur (" "%char :: rest) = rev cur :: split_go [] rest.
Proof. by destruct cur. Qed.

Lemma rev_not_nil (l : list ascii) : l <> [] -> rev l <> [].
Proof.
  intros Hl Hr. apply Hl. by rewrite <- (rev_involutive l), Hr.
Qed.

(** Splitting undoes joining words with a space. *)
Lemma split_join (parts : list string) :
  Forall is_word parts -> split (join " " parts) = parts.
Proof.
  unfold split.
  induction 1 as [|p rest [Hne Hp] Hrest IH]; [done|].
  destruct rest as [|q rest].
  - simpl join. rewrite <- (app_nil_r (chars p)), split_go_word by done.
    rewrite app_nil_r, split_go_end by by apply rev_not_nil.
    simpl. by rewrite rev_involutive, of_chars_chars.
  - change (join " " (p :: q :: rest))
      with (p ++ " " ++ join " " (q :: rest))%string.
    rewrite chars_app. change (chars (" " ++ join " " (q :: rest))%string)
      with (" "%char :: chars (join " " (q :: rest))).
    rewrite split_go_word by done.
    rewrite app_nil_r, split_go_space by by apply rev_not_nil.
    rewrite rev_involutive. simpl map. rewrite of_chars_chars.
    f_equal. exact IH.
Qed.

Lemma normalize_ws_idempotent (s : string) :
  normalize_ws (normalize_ws s) = normalize_ws s.
Proof. unfold normalize_ws. by rewrite split_join by apply split_words. Qed.

Lemma split_normalize_ws (s : string) : split (normalize_ws s) = split s.
Proof. unfold normalize_ws. apply split_join, split_words. Qed.


Lemma join_words_edges (parts : list string) :
  Forall is_word parts -> parts <> [] ->
  (exists c l, chars (join " " parts) = c :: l /\ isspace c = false) /\
  (exists c l, rev (chars (join " " parts)) = c :: l /\ isspace c = false).
Proof.
  induction 1 as [|p rest [Hne Hp] Hrest IH]; [done|]. intros _.
  assert (Hhead : exists c l, chars p = c :: l /\ isspace c = false).
  { destruct (chars p) as [|c l]; [done|]. exists c, l.
    by apply Forall_cons in Hp as [Hc _]. }
  assert (Hlast : exists c l, rev (chars p) = c :: l /\ isspace c = false).
  { pose proof (rev_not_nil _ Hne) as Hr. apply Forall_rev in Hp.
    destruct (rev (chars p)) as [|c l]; [done|]. exists c, l.
    by apply Forall_cons in Hp as [Hc _]. }
  destruct rest as [|q rest]; [by split|].
  change (join " " (p :: q :: rest))
    with (p ++ " " ++ join " " (q :: rest))%string.
  rewrite chars_app.
  change (chars (" " ++ join " " (q :: rest))%string)
    with (" "%char :: chars (join " " (q :: rest))).
  split.
  - destruct Hhead as (c & l & -> & Hc). exists c. eexists.
    split; [|exact Hc]. simpl. reflexivity.
  - destruct IH as [_ (c & l & Hrev & Hc)]; [done|].
    rewrite rev_app_distr. cbn [rev]. rewrite Hrev.
    exists c. eexists. split; [|exact Hc]. simpl. reflexivity.
Qed.

(** A text joined from words has nothing to strip. *)
Lemma strip_join (parts : list string) :
  Forall is_word parts -> strip (join " " parts) = join " " parts.
Proof.
  intros Hparts. destruct parts as [|p rest]; [done|].
  destruct (join_words_edges (p :: rest) Hparts)
    as [(c & l & Hl & Hc) (c' & l' & Hr & Hc')]; [done|].
  unfold strip, strip_chars. rewrite Hl. simpl lstrip_chars. rewrite Hc.
  rewrite <- Hl, Hr. simpl lstrip_chars. rewrite Hc'.
  by rewrite <- Hr, rev_involutive, of_chars_chars.
Qed.

Lemma join_words_nonempty (parts : list string) :
  Forall is_word parts -> parts <> [] -> nonempty (join " " parts) = true.
Proof.
  intros Hparts Hne.
  destruct (join_words_edges parts Hparts Hne) as [(c & l & Hl & _) _].
  by destruct (join " " parts).
Qed.

Lemma len_app (a b : string) : len (a ++ b) = len a + len b.
Proof. unfold len. by rewrite chars_app, length_app. Qed.

Lemma len_prefix (n : nat) (s : string) : len (prefix n s) <= n.
Proof.
  unfold len, prefix, slice. rewrite chars_of_chars, length_take. lia.
Qed.

Lemma lacks_app (a : ascii) (s t : string) :
  lacks a s -> lacks a t -> lacks a (s ++ t).
Proof. unfold lacks. rewrite chars_app. apply Forall_app_2. Qed.

Lemma lacks_prefix (a : ascii) (n : nat) (s : string) :
  lacks a s -> lacks a (prefix n s).
Proof.
  unfold lacks, prefix, slice. rewrite chars_of_chars. intros H.
  by apply Forall_take, Forall_drop.
Qed.

(** Replacing one character by another is a map over the characters. *)
Lemma replace_char (a b : ascii) (l : list ascii) :
  replace_go [a] [b] 0 l = map (fun c => if ascii_dec a c then b else c) l.
Proof.
  induction l as [|c l IH]; [done|].
  simpl. destruct (ascii_dec a c); simpl; by rewrite IH.
Qed.

Lemma lacks_replace_char (a b : ascii) (s : string) :
  a <> b ->
  lacks a (replace (String a "") (String b "") s).
Proof.
  intros Hab. unfold lacks, replace. rewrite chars_of_chars. simpl chars.
  rewrite replace_char. apply Forall_forall. intros c Hc.
  apply list_elem_of_In, in_map_iff in Hc as (c0 & <- & _).
  by destruct (ascii_dec a c0).
Qed.

Lemma len_replace_char (a b : ascii) (s : string) :
  len (replace (String a "") (String b "") s) = len s.
Proof.
  unfold len, replace. rewrite chars_of_chars. simpl chars.
  by rewrite replace_char, length_map.
Qed.

(** Replacement brings in no character but those of the text and of the
    replacement. *)
Lemma Forall_replace_go (P : ascii -> Prop) (old new l : list ascii) (skip : nat) :
  Forall P new -> Forall P l -> Forall P (replace_go old new skip l).
Proof.
  intros Hnew Hl. revert skip.
  induction Hl as [|c l Hc Hl IH]; intros skip; [constructor|].
  simpl. destruct skip; [|apply IH].
  destruct (starts_with old (c :: l)).
  - apply Forall_app_2; [exact Hnew | apply IH].
  - constructor; [exact Hc | apply IH].
Qed.

Lemma lacks_replace (a : ascii) (old new s : string) :
  lacks a new -> lacks a s -> lacks a (replace old new s).
Proof.
  unfold lacks, replace. rewrite chars_of_chars. apply Forall_replace_go.
Qed.

Lemma lacks_lower (a : ascii) (s : string) :
  (forall c, lower_char c = a -> c = a) ->
  lacks a s -> lacks a (lower s).
Proof.
  intros Ha Hs. unfold lacks, lower. rewrite chars_of_chars.
  apply Forall_forall. intros c Hc.
  apply list_elem_of_In, in_map_iff in Hc as (c0 & <- & Hc0).
  intros Heq. apply Ha in Heq. subst c0.
  unfold lacks in Hs. rewrite Forall_forall in Hs.
  apply (Hs a); [by apply list_elem_of_In | done].
Qed.

Lemma lower_char_slash (c : ascii) : lower_char c = "/"%char -> c = "/"%char.
Proof. destruct c as [[] [] [] [] [] [] [] []]; by intros [=]. Qed.

Lemma lower_char_space (c : ascii) : lower_char c = " "%char -> c = " "%char.
Proof. destruct c as [[] [] [] [] [] [] [] []]; by intros [=]. Qed.

Lemma basename_go_lacks_slash (cur l : list ascii) :
  Forall (fun c => c <> "/"%char) cur ->
  Forall (fun c => c <> "/"%char) (basename_go cur l).
Proof.
  revert cur. induction l as [|c l IH]; intros cur Hcur; simpl.
  - by apply Forall_rev.
  - destruct (code c =? 47)%nat eqn:Hc; [by apply IH|].
    apply IH. constructor; [|done]. intros ->. discriminate Hc.
Qed.

(** A file name has no ["/"]. *)
Lemma basename_lacks_slash (path : string) : lacks "/" (basename path).
Proof.
  unfold lacks, basename. rewrite chars_of_chars.
  by apply basename_go_lacks_slash.
Qed.

(** A name without ["/"] is put under the directory. *)
Lemma path_join_under (dir name : string) :
  lacks "/" name -> path_join dir name = (dir ++ "/" ++ name)%string.
Proof.
  unfold path_join. destruct name as [|c name]; [done|].
  intros H. apply Forall_cons in H as [Hc _].
  by destruct c as [[] [] [] [] [] [] [] []].
Qed.


Lemma lstrip_chars_head (l l' : list ascii) (c : ascii) :
  lstrip_chars l = c :: l' -> isspace c = false.
Proof.
  induction l as [|a l IH]; [done|]. simpl.
  destruct (isspace a) eqn:Ha; [exact IH|]. by intros [= <- _].
Qed.

Lemma lstrip_chars_fixed (l : list ascii) :
  (forall c l', l = c :: l' -> isspace c = false) -> lstrip_chars l = l.
Proof.
  destruct l as [|c l]; [done|]. intros H. simpl.
  by rewrite (H c l eq_refl).
Qed.

Lemma lstrip_chars_suffix (l : list ascii) :
  exists pre, l = pre ++ lstrip_chars l.
Proof.
  induction l as [|a l [pre IH]]; [by exists []|]. simpl.
  destruct (isspace a); [|by exists []].
  exists (a :: pre). simpl. by rewrite <- IH.
Qed.

(** Stripping twice strips no more. *)
Lemma strip_idempotent (s : string) : strip (strip s) = strip s.
Proof.
  unfold strip. rewrite chars_of_chars. f_equal. unfold strip_chars.
  set (m := lstrip_chars (chars s)).
  set (n := lstrip_chars (rev m)).
  assert (Hrev : lstrip_chars (rev n) = rev n).
  { apply lstrip_chars_fixed. intros c x Hc.
    destruct (lstrip_chars_suffix (rev m)) as [pre Hpre]. fold n in Hpre.
    apply (f_equal (@rev ascii)) in Hpre.
    rewrite rev_involutive, rev_app_distr, Hc in Hpre.
    by apply (lstrip_chars_head (chars s) (x ++ rev pre) c). }
  rewrite Hrev, rev_involutive. f_equal.
  apply lstrip_chars_fixed. intros c x Hc.
  by apply (lstrip_chars_head (rev m) x c).
Qed.

Lemma first_line_lacks_newline (s : string) :
  lacks (ascii_of_nat 10) (first_line s).
Proof.
  unfold lacks, first_line. rewrite chars_of_chars.
  induction (chars s) as [|c l IH]; simpl; [constructor|].
  destruct (code c =? 10)%nat eqn:Hc; [constructor|].
  constructor; [|exact IH]. intros ->. discriminate Hc.
Qed.

Lemma lacks_strip (a : ascii) (s : string) : lacks a s -> lacks a (strip s).
Proof.
  unfold lacks, strip. rewrite chars_of_chars. intros H. unfold strip_chars.
  apply Forall_rev, Forall_lstrip_chars, Forall_rev.
  by apply Forall_lstrip_chars.
Qed.

(** In a text joined from words, the only whitespace is the single space
    between two words. *)
Lemma join_words_spaces (parts : list string) :
  Forall is_word parts ->
  Forall (fun c => isspace c = true -> c = " "%char) (chars (join " " parts)).
Proof.
  induction 1 as [|p rest [_ Hp] Hrest IH]; [constructor|].
  assert (Hword : Forall (fun c => isspace c = true -> c = " "%char) (chars p)).
  { eapply Forall_impl; [exact Hp|]. intros c Hc. by rewrite Hc. }
  destruct rest as [|q rest]; [exact Hword|].
  change (join " " (p :: q :: rest))
    with (p ++ " " ++ join " " (q :: rest))%string.
  rewrite chars_app. apply Forall_app_2; [exact Hword|].
  change (chars (" " ++ join " " (q :: rest))%string)
    with (" "%char :: chars (join " " (q :: rest))).
  by constructor.
Qed.

(** Every character of a word that occurs in a text is in the text. *)
Lemma occurs_has_chars (w s : string) :
  occurs w s -> Forall (fun c => In c (chars s)) (chars w).
Proof.
  intros (pre & post & ->). rewrite !chars_app. apply Forall_forall.
  intros c Hc. apply list_elem_of_In in Hc.
  apply in_or_app. right. apply in_or_app. by left.
Qed.

End WordFacts.

(** ** More on the PDF section extractor *)

Section MorePdfFacts.
Import Text Re Py Py.Notations PdfScraper Shape.

Lemma of_chars_app (a b : list ascii) :
  of_chars (a ++ b) = (of_chars a ++ of_chars b)%string.
Proof. induction a as [|c a IH]; simpl; [done | by rewrite IH]. Qed.

(** A literal word of the pattern matches, letter by letter and without
    regard to case, the characters it consumes. *)
Lemma run_word_chars (w : list ascii) (k : matcher) bol pos rest g x :
  run (word_chars w) k bol pos rest g = Some x ->
  exists m rest',
    rest = m ++ rest' /\
    Forall2 (fun a c => lower_char a = lower_char c) m w.
Proof.
  revert bol pos rest. induction w as [|c w IH]; intros bol pos rest; simpl.
  - intros _. exists [], rest. by split; [|constructor].
  - unfold one. destruct rest as [|a rest]; [done|].
    unfold accepts.
    destruct (ascii_dec (lower_char a) (lower_char c)) as [Hac|]; [|done].
    intros Hrun. destruct (IH _ _ _ Hrun) as (m & rest' & -> & Hm).
    exists (a :: m), rest'. by split; [|constructor].
Qed.

(** A successful search matched at some suffix of the text. *)
Lemma search_from_suffix (r : regex) bol pos rest g :
  search_from r bol pos rest = Some g ->
  exists pre suf bol' pos',
    rest = pre ++ suf /\ run r accept bol' pos' suf None = Some g.
Proof.
  revert bol pos. induction rest as [|c rest IH]; intros bol pos; simpl.
  - destruct (run r accept bol pos [] None) as [g'|] eqn:Hrun; [|done].
    intros [= <-]. by exists [], [], bol, pos.
  - destruct (run r accept bol pos (c :: rest) None) as [g'|] eqn:Hrun.
    + intros [= <-]. by exists [], (c :: rest), bol, pos.
    + intros Hs. destruct (IH _ _ Hs) as (pre & suf & bol' & pos' & -> & Hr).
      by exists (c :: pre), suf, bol', pos'.
Qed.

Lemma same_letters (m w : list ascii) :
  Forall2 (fun a c => lower_char a = lower_char c) m w ->
  Forall (fun a => lower_char a = a) m ->
  Forall (fun c => lower_char c = c) w ->
  m = w.
Proof.
  induction 1 as [|a c m w Hac Hmw IH]; [done|].
  intros [Ha Hm]%Forall_cons [Hc Hw]%Forall_cons.
  f_equal; [congruence | by apply IH].
Qed.

(** The abstract pattern can only match a lowercased text in which the
    word "abstract" occurs; the text is one of code points up to U+00FF,
    where the letters of the pattern match their two cases only. *)
Lemma abstract_match_occurs (s : string) :
  is_Some (search ABSTRACT_REGEX (lower s)) -> occurs "abstract" (lower s).
Proof.
  intros [m Hm]. unfold search in Hm.
  destruct (search_from ABSTRACT_REGEX true 0 (chars (lower s)))
    as [g|] eqn:Hs; [|done].
  apply search_from_suffix in Hs as (pre & suf & bol & pos & Hsplit & Hrun).
  unfold ABSTRACT_REGEX in Hrun. cbn [seq run] in Hrun. unfold word in Hrun.
  apply run_word_chars in Hrun as (mid & post & -> & Hmid).
  assert (Hlow : Forall (fun a => lower_char a = a) (chars (lower s))).
  { unfold lower. rewrite chars_of_chars. apply Forall_forall. intros a Ha.
    apply list_elem_of_In, in_map_iff in Ha as (a0 & <- & _).
    apply lower_char_lower_char. }
  rewrite Hsplit in Hlow.
  apply Forall_app in Hlow as [_ [Hlow _]%Forall_app].
  assert (mid = chars "abstract") as ->.
  { apply same_letters; [exact Hmid | exact Hlow | by repeat constructor]. }
  exists (of_chars pre), (of_chars post).
  rewrite <- (of_chars_chars (lower s)), Hsplit, !of_chars_app.
  by rewrite of_chars_chars.
Qed.

Lemma filter_key_delete (k0 : string) (m : gmap string string) :
  filter (fun kv : string * string => kv.1 <> k0) m = delete k0 m.
Proof.
  apply map_eq. intros k. destruct (decide (k = k0)) as [->|Hne].
  - rewrite lookup_delete_eq. apply map_lookup_filter_None. right.
    intros v _ Hk. by apply Hk.
  - rewrite lookup_delete_ne by done.
    destruct (m !! k) as [v|] eqn:Hk.
    + by apply map_lookup_filter_Some.
    + apply map_lookup_filter_None. by left.
Qed.

(** The whole run on a PDF whose pages give their text. *)
Lemma extract_pdf_sections_result env path t ts fs :
  path_exists env path = true ->
  pdf_open env path = Ok (map Ok (t :: ts)) ->
  let m := populated path (default "" t)
             (join nl (map (default "") (t :: ts))) in
  extract_pdf_sections env path fs
  = match open_error env (output_path path) with
    | None => (Ok m, fs ++ [(output_path path,
                            Files.Json (delete "full_text" m))])
    | Some e =>
        (Ok (<["error" := ("Error processing PDF: " ++ str e)%string]> m), fs)
    end.
Proof.
  intros Hex Hopen m.
  unfold extract_pdf_sections, extract_pdf_sections_body.
  rewrite Hex. unfold try_except. change (negb true) with false.
  cbv beta iota.
  pose proof (process_run env path (t :: ts) (default "" t)
                (map (default "") ts) fs Hopen eq_refl) as Hrun.
  cbv zeta in Hrun. rewrite Hrun. clear Hrun.
  change (join nl (default "" t :: map (default "") ts))
    with (join nl (map (default "") (t :: ts))).
  fold m.
  destruct (open_error env (output_path path)) as [e|]; simpl.
  - reflexivity.
  - by rewrite filter_key_delete.
Qed.

Lemma populated_no_error path first_page full_text :
  populated path first_page full_text !! "error" = None.
Proof.
  unfold populated, initial_metadata.
  destruct (nonempty (found_abstract full_text)); by simplify_map_eq.
Qed.

(** X1.  On a PDF whose pages give their text, when the output file can
    be opened, [extract_pdf_sections] writes exactly one file, at the
    output path of the PDF; the record written is the record returned
    without its [full_text] entry, and the record returned has no [error]
    entry. *)
Theorem extract_pdf_sections_persists_metadata_only env path t ts fs :
  path_exists env path = true ->
  pdf_open env path = Ok (map Ok (t :: ts)) ->
  open_error env (output_path path) = None ->
  exists r,
    extract_pdf_sections env path fs
    = (Ok r, fs ++ [(output_path path, Files.Json (delete "full_text" r))]) /\
    r !! "error" = None /\
    is_Some (r !! "full_text") /\
    delete "full_text" r !! "full_text" = None /\
    forall k, k <> "full_text" -> delete "full_text" r !! k = r !! k.
Proof.
  intros Hex Hopen Hwrite.
  rewrite (extract_pdf_sections_result env path t ts fs Hex Hopen), Hwrite.
  eexists. split; [reflexivity|].
  destruct (populated_lookups path (default "" t)
              (join nl (map (default "") (t :: ts))))
    as (_ & _ & _ & _ & Hf & _).
  split_and!.
  - apply populated_no_error.
  - rewrite Hf. by eexists.
  - apply lookup_delete_eq.
  - intros k Hk. by rewrite lookup_delete_ne.
Qed.

(** X2.  When the output file cannot be opened, [extract_pdf_sections]
    still returns: nothing is written, the record has the [error] entry
    with the message of the exception, and the fields extracted from the
    PDF are in it all the same. *)
Theorem extract_pdf_sections_write_failure env path t ts fs e :
  path_exists env path = true ->
  pdf_open env path = Ok (map Ok (t :: ts)) ->
  open_error env (output_path path) = Some e ->
  let full_text := join nl (map (default "") (t :: ts)) in
  exists r,
    extract_pdf_sections env path fs = (Ok r, fs) /\
    r !! "error" = Some ("Error processing PDF: " ++ str e)%string /\
    r !! "title" = Some (strip (first_line (default "" t))) /\
    r !! "full_text" = Some (join " " (split full_text)) /\
    r !! "introduction" = Some (safe_search INTRO_REGEX (lower full_text) "") /\
    r !! "conclusion"
      = Some (safe_search CONCLUSION_REGEX (lower full_text) "").
Proof.
  intros Hex Hopen Hwrite full_text.
  rewrite (extract_pdf_sections_result env path t ts fs Hex Hopen), Hwrite.
  eexists. split; [reflexivity|].
  destruct (populated_lookups path (default "" t) full_text)
    as (Hi & Hc & _ & Ht & Hf & _).
  rewrite lookup_insert_eq, !lookup_insert_ne by done.
  by split_and!.
Qed.

(** X3.  The output file of a PDF lies directly in the processed-data
    directory: its name is the document id followed by
    ["_processed.json"], and the document id has no ["/"] and no space,
    and is in lowercase form: [lower] leaves it as it is and none of the
    letters A to Z occurs in it. *)
Theorem output_path_in_processed_dir (path : string) :
  output_path path
  = (PROCESSED_DATA_DIR ++ "/" ++ doc_id_of path ++ "_processed.json")%string /\
  lacks "/" (doc_id_of path) /\
  lacks " " (doc_id_of path) /\
  lowered (doc_id_of path) /\
  no_capital (doc_id_of path).
Proof.
  assert (Hslash : lacks "/" (doc_id_of path)).
  { unfold doc_id_of. apply lacks_lower; [apply lower_char_slash|].
    apply lacks_replace; [by repeat constructor|].
    apply lacks_replace; [constructor|]. apply basename_lacks_slash. }
  split_and!; [|exact Hslash| |apply lowered_lower|apply no_capital_lower].
  - unfold output_path. apply path_join_under.
    apply lacks_app; [exact Hslash | by repeat constructor].
  - unfold doc_id_of. apply lacks_lower; [apply lower_char_space|].
    by apply (lacks_replace_char " " "_").
Qed.


(** X4.  On a PDF whose pages give their text, the abstract is empty only
    if the text has no word at all: with one word in the text, the
    abstract found or the first-150-words fallback is not empty. *)
Theorem extract_pdf_sections_abstract_nonempty env path t ts fs :
  path_exists env path = true ->
  pdf_open env path = Ok (map Ok (t :: ts)) ->
  split (join nl (map (default "") (t :: ts))) <> [] ->
  exists r a,
    fst (extract_pdf_sections env path fs) = Ok r /\
    r !! "abstract" = Some a /\
    nonempty a = true.
Proof.
  intros Hex Hopen Hwords.
  destruct (extract_pdf_sections_run env path t ts fs Hex Hopen)
    as (r & Hr & Hsame).
  destruct (populated_lookups path (default "" t)
              (join nl (map (default "") (t :: ts))))
    as (_ & _ & Ha & _).
  exists r. eexists. split; [exact Hr|].
  rewrite Hsame by done. split; [exact Ha|].
  destruct (nonempty (found_abstract _)) eqn:Hf; [exact Hf|].
  unfold fallback_abstract. apply join_words_nonempty.
  - apply Forall_take, split_words.
  - destruct (split _); [done|]. done.
Qed.

(** X5.  For a PDF whose text has no character beyond U+00FF: when the
    word "abstract" occurs nowhere in the lowercased text, the abstract
    pattern does not match and the abstract is the first 150 words of
    the text.  (Beyond U+00FF the premise would not be enough: under
    [re.I] the [s] of the pattern also matches U+017F.) *)
Theorem extract_pdf_sections_no_abstract_word env path t ts fs :
  path_exists env path = true ->
  pdf_open env path = Ok (map Ok (t :: ts)) ->
  let full_text := join nl (map (default "") (t :: ts)) in
  ~ occurs "abstract" (lower full_text) ->
  exists r,
    fst (extract_pdf_sections env path fs) = Ok r /\
    r !! "abstract" = Some (join " " (take 150 (split full_text))).
Proof.
  intros Hex Hopen full_text Hnone.
  destruct (extract_pdf_sections_run env path t ts fs Hex Hopen)
    as (r & Hr & Hsame).
  fold full_text in Hsame.
  destruct (populated_lookups path (default "" t) full_text)
    as (_ & _ & Ha & _).
  exists r. split; [exact Hr|]. rewrite Hsame by done. rewrite Ha.
  assert (Hsearch : search ABSTRACT_REGEX (lower full_text) = None).
  { destruct (search ABSTRACT_REGEX (lower full_text)) eqn:Hs; [|done].
    exfalso. apply Hnone, abstract_match_occurs. rewrite Hs. by eexists. }
  unfold found_abstract. by rewrite (safe_search_none _ _ Hsearch).
Qed.

(** X6.  When the pattern gives no abstract, the abstract returned splits
    back into exactly the first 150 words of the text; it has at most 150
    words. *)
Theorem extract_pdf_sections_fallback_words env path t ts fs :
  path_exists env path = true ->
  pdf_open env path = Ok (map Ok (t :: ts)) ->
  let full_text := join nl (map (default "") (t :: ts)) in
  nonempty (found_abstract full_text) = false ->
  exists r a,
    fst (extract_pdf_sections env path fs) = Ok r /\
    r !! "abstract" = Some a /\
    split a = take 150 (split full_text) /\
    length (split a) <= 150.
Proof.
  intros Hex Hopen full_text Hfound.
  destruct (extract_pdf_sections_run env path t ts fs Hex Hopen)
    as (r & Hr & Hsame).
  fold full_text in Hsame.
  destruct (populated_lookups path (default "" t) full_text)
    as (_ & _ & Ha & _).
  rewrite Hfound in Ha.
  exists r, (fallback_abstract full_text). split; [exact Hr|].
  rewrite Hsame by done. split; [exact Ha|].
  assert (Hsplit : split (fallback_abstract full_text)
                   = take 150 (split full_text)).
  { apply split_join, Forall_take, split_words. }
  split; [exact Hsplit|]. rewrite Hsplit, length_take. lia.
Qed.

(** X7.  The [full_text] field of the record is the text with its
    whitespace normalised: it has the same words as the text, normalising
    or stripping it again changes nothing, and its only whitespace is
    single spaces (no newline is left of the page breaks). *)
Theorem extract_pdf_sections_full_text_normalised env path t ts fs :
  path_exists env path = true ->
  pdf_open env path = Ok (map Ok (t :: ts)) ->
  let full_text := join nl (map (default "") (t :: ts)) in
  exists r f,
    fst (extract_pdf_sections env path fs) = Ok r /\
    r !! "full_text" = Some f /\
    split f = split full_text /\
    normalize_ws f = f /\
    strip f = f /\
    Forall (fun c => isspace c = true -> c = " "%char) (chars f).
Proof.
  intros Hex Hopen full_text.
  destruct (extract_pdf_sections_run env path t ts fs Hex Hopen)
    as (r & Hr & Hsame).
  fold full_text in Hsame.
  destruct (populated_lookups path (default "" t) full_text)
    as (_ & _ & _ & _ & Hf & _).
  exists r, (normalize_ws full_text). split; [exact Hr|].
  rewrite Hsame by done. split; [exact Hf|].
  split_and!.
  - apply split_normalize_ws.
  - apply normalize_ws_idempotent.
  - apply strip_join, split_words.
  - apply join_words_spaces, split_words.
Qed.

(** X8.  The title of the record is one line without surrounding
    whitespace: it has no newline, and stripping it changes nothing. *)
Theorem extract_pdf_sections_title_one_line env path t ts fs :
  path_exists env path = true ->
  pdf_open env path = Ok (map Ok (t :: ts)) ->
  exists r title,
    fst (extract_pdf_sections env path fs) = Ok r /\
    r !! "title" = Some title /\
    lacks (ascii_of_nat 10) title /\
    strip title = title.
Proof.
  intros Hex Hopen.
  destruct (extract_pdf_sections_run env path t ts fs Hex Hopen)
    as (r & Hr & Hsame).
  destruct (populated_lookups path (default "" t)
              (join nl (map (default "") (t :: ts))))
    as (_ & _ & _ & Ht & _).
  exists r. eexists. split; [exact Hr|].
  rewrite Hsame by done. split; [exact Ht|]. split.
  - apply lacks_strip, first_line_lacks_newline.
  - apply strip_idempotent.
Qed.

End MorePdfFacts.

(** ** More on the web crawler *)

Section MoreWebFacts.
Import Text Py Py.Notations WebCrawler Shape.

Lemma error_record_fields (url message : string) :
  error_record url message !! "url" = Some url /\
  error_record url message !! "title" = Some "ERROR" /\
  error_record url message !! "text" = Some message /\
  error_record url message !! "source" = Some "web_page".
Proof. unfold error_record. split_and!; by simplify_map_eq. Qed.

(** The text of a page is some text with its whitespace normalised. *)
Lemma page_text_normalised (soup : Soup) :
  exists y, page_text soup = normalize_ws y.
Proof.
  unfold page_text.
  set (text := join " " (map (get_text " ") _)).
  rewrite !strip_join by apply split_words.
  destruct (nonempty (join " " (split text))); by eexists.
Qed.

(** The run of a fetch whose request, whose parse and whose two writes
    succeed. *)
Lemma fetch_page_text_success env url timeout fs r soup :
  requests_get env url timeout USER_AGENT = Ok r ->
  http_error r = None ->
  beautiful_soup env (text r) = Ok soup ->
  let doc_id := doc_id_of env url (page_title env url soup) in
  open_error env (raw_path doc_id) = None ->
  open_error env (processed_path doc_id) = None ->
  fetch_page_text env url timeout fs
  = (Ok (Fetched.success_record env url soup),
     fs ++ [ (raw_path doc_id, Files.Markup (text r));
             (processed_path doc_id,
              Files.Json (Fetched.success_record env url soup)) ]).
Proof.
  intros Hget Hstatus Hsoup doc_id Hraw Hproc.
  by apply fetch_page_text_run.
Qed.

(** X9.  [fetch_page_text] returns a record in every case, whatever the
    request, the parser and the opening of the files do, be it to raise
    an exception: the record has the [url] asked for, the source
    ["web_page"], a title and a text; and the call writes at most two
    files. *)
Theorem fetch_page_text_always_returns env url timeout fs :
  exists r written,
    fetch_page_text env url timeout fs = (Ok r, fs ++ written) /\
    length written <= 2 /\
    r !! "url" = Some url /\
    r !! "source" = Some "web_page" /\
    is_Some (r !! "title") /\
    is_Some (r !! "text").
Proof.
  assert (Herr : forall message written,
             length written <= 2 ->
             exists r written',
               (Ok (error_record url message), fs ++ written)
               = (Ok r, fs ++ written') /\
               length written' <= 2 /\
               r !! "url" = Some url /\
               r !! "source" = Some "web_page" /\
               is_Some (r !! "title") /\
               is_Some (r !! "text")).
  { intros message written Hlen.
    destruct (error_record_fields url message) as (Hu & Ht & Hx & Hs).
    exists (error_record url message), written.
    rewrite Hu, Ht, Hx, Hs. split_and!; try done; by eexists. }
  assert (Hhandler : forall e written,
             length written <= 2 ->
             exists r written',
               (if is_request_exception e
                then ret (error_record url ("Failed to fetch: " ++ str e))
                else ret (error_record url ("Unexpected error: " ++ str e)))
                 (fs ++ written)
               = (Ok r, fs ++ written') /\
               length written' <= 2 /\
               r !! "url" = Some url /\
               r !! "source" = Some "web_page" /\
               is_Some (r !! "title") /\
               is_Some (r !! "text")).
  { intros e written Hlen.
    destruct (is_request_exception e); by apply Herr. }
  unfold fetch_page_text, try_except, fetch.
  unfold bind at 1. unfold call at 1.
  destruct (requests_get env url timeout USER_AGENT) as [r|e].
  2:{ simpl. pose proof (Hhandler e [] ltac:(simpl; lia)) as H.
      by rewrite app_nil_r in H. }
  unfold bind at 1. unfold raise_for_status.
  destruct (http_error r) as [msg|].
  { simpl.
    pose proof (Hhandler (RequestException msg) [] ltac:(simpl; lia)) as H.
    by rewrite app_nil_r in H. }
  unfold check at 1, ret at 1. simpl fmap. cbv beta iota.
  unfold bind at 1. unfold call at 1.
  destruct (beautiful_soup env (text r)) as [soup|e].
  2:{ simpl. pose proof (Hhandler e [] ltac:(simpl; lia)) as H.
      by rewrite app_nil_r in H. }
  set (doc_id := doc_id_of env url _).
  unfold bind at 1. unfold write_file at 1. unfold bind at 1.
  destruct (open_error env (raw_path doc_id)) as [e|].
  { simpl. pose proof (Hhandler e [] ltac:(simpl; lia)) as H.
    by rewrite app_nil_r in H. }
  unfold check at 1, ret at 1, modify at 1.
  unfold bind at 1. unfold write_file at 1. unfold bind at 1.
  destruct (open_error env (processed_path doc_id)) as [e|].
  { simpl. apply Hhandler. simpl. lia. }
  unfold check at 1, ret at 1, modify at 1. unfold ret.
  eexists. eexists [_; _]. simpl.
  split; [by rewrite <- app_assoc|].
  split_and!; [simpl; lia | by simplify_map_eq.. | |];
    eexists; by simplify_map_eq.
Qed.

(** X10.  When the raw markup has been written and the processed record
    cannot be, the call returns the error record and leaves the raw file
    behind: one file is written, not two. *)
Theorem fetch_page_text_partial_write env url timeout fs r soup e :
  requests_get env url timeout USER_AGENT = Ok r ->
  http_error r = None ->
  beautiful_soup env (text r) = Ok soup ->
  let doc_id := doc_id_of env url (page_title env url soup) in
  open_error env (raw_path doc_id) = None ->
  open_error env (processed_path doc_id) = Some e ->
  exists record,
    fetch_page_text env url timeout fs
    = (Ok record, fs ++ [(raw_path doc_id, Files.Markup (text r))]) /\
    record !! "title" = Some "ERROR" /\
    record !! "text"
      = Some ((if is_request_exception e then "Failed to fetch: "
               else "Unexpected error: ") ++ str e)%string.
Proof.
  intros Hget Hstatus Hsoup doc_id Hraw Hproc.
  unfold fetch_page_text, try_except, fetch.
  unfold bind at 1. unfold call at 1. rewrite Hget.
  unfold bind at 1. unfold raise_for_status. rewrite Hstatus.
  unfold check at 1, ret at 1. simpl fmap. cbv beta iota.
  unfold bind at 1. unfold call at 1. rewrite Hsoup.
  fold doc_id.
  unfold bind at 1. unfold write_file at 1. unfold bind at 1.
  rewrite Hraw. unfold check at 1, ret at 1, modify at 1.
  unfold bind at 1. unfold write_file at 1. unfold bind at 1.
  rewrite Hproc. simpl.
  destruct (is_request_exception e); simpl; eexists;
    (split; [reflexivity|]); unfold error_record; by simplify_map_eq.
Qed.

(** X11.  Whatever the title of the page, the document id is at most 59
    characters long and, the hash string having no ["/"], has none
    either; so both files are written directly in the raw-data directory,
    under [<id>_raw.html] and [<id>_processed.json]. *)
Theorem doc_id_names_files_in_raw_dir env url title :
  lacks "/" (hash_str env url) ->
  let doc_id := doc_id_of env url title in
  len doc_id <= 59 /\
  lacks "/" doc_id /\
  raw_path doc_id = (RAW_DATA_DIR ++ "/" ++ doc_id ++ "_raw.html")%string /\
  processed_path doc_id
  = (RAW_DATA_DIR ++ "/" ++ doc_id ++ "_processed.json")%string.
Proof.
  intros Hhash doc_id.
  assert (Hslash : lacks "/" doc_id).
  { unfold doc_id, doc_id_of. apply lacks_app.
    - apply lacks_prefix, lacks_lower; [apply lower_char_slash|].
      by apply (lacks_replace_char "/" "-").
    - apply lacks_app; [by repeat constructor|]. by apply lacks_prefix. }
  split_and!; [|exact Hslash|..].
  - unfold doc_id, doc_id_of. rewrite !len_app.
    pose proof (len_prefix 50 (lower (replace "/" "-" (replace " " "_" title)))).
    pose proof (len_prefix 8 (hash_str env url)).
    change (len "_") with 1. lia.
  - unfold raw_path. apply path_join_under.
    apply lacks_app; [exact Hslash | by repeat constructor].
  - unfold processed_path. apply path_join_under.
    apply lacks_app; [exact Hslash | by repeat constructor].
Qed.

(** X12.  The record of a successful fetch has exactly the five fields
    [url], [title], [date_fetched], [source] and [text], and its text is
    whitespace-normalised: normalising or stripping it again changes
    nothing, and its only whitespace is single spaces. *)
Theorem fetch_page_text_success_record env url timeout fs r soup :
  requests_get env url timeout USER_AGENT = Ok r ->
  http_error r = None ->
  beautiful_soup env (text r) = Ok soup ->
  let doc_id := doc_id_of env url (page_title env url soup) in
  open_error env (raw_path doc_id) = None ->
  open_error env (processed_path doc_id) = None ->
  exists record x,
    fst (fetch_page_text env url timeout fs) = Ok record /\
    dom record
    = ({["url"; "title"; "date_fetched"; "source"; "text"]} : gset string) /\
    record !! "source" = Some "web_page" /\
    record !! "text" = Some x /\
    normalize_ws x = x /\
    strip x = x /\
    Forall (fun c => isspace c = true -> c = " "%char) (chars x).
Proof.
  intros Hget Hstatus Hsoup doc_id Hraw Hproc.
  rewrite (fetch_page_text_success env url timeout fs r soup Hget Hstatus
             Hsoup Hraw Hproc).
  simpl fst. unfold Fetched.success_record.
  destruct (page_text_normalised soup) as [y Hy].
  eexists. exists (page_text soup).
  split; [reflexivity|]. split_and!; try by simplify_map_eq.
  - rewrite Hy. apply normalize_ws_idempotent.
  - rewrite Hy. apply strip_join, split_words.
  - rewrite Hy. apply join_words_spaces, split_words.
Qed.

End MoreWebFacts.

(** ** Loading the processed records *)

Section LoaderFacts.
Import Text Py Py.Notations Utils Loader Shape.

Lemma truthy_py_or (a b : option string) :
  truthy (py_or a b) = truthy a || truthy b.
Proof. unfold py_or. by destruct (truthy a) eqn:Ha; [rewrite Ha|]. Qed.

Lemma load_file_run env directory filename docs :
  load_file env directory filename docs
  = (Ok tt, docs ++ option_list (kept env directory filename)).
Proof.
  unfold load_file, kept.
  destruct (endswith "_processed.json" filename); [|by rewrite app_nil_r].
  unfold try_except, bind, call.
  destruct (load_json env (path_join directory filename)) as [data|e].
  - rewrite truthy_py_or.
    destruct (truthy (data !! "text") || truthy (data !! "full_text"));
      [done | by rewrite app_nil_r].
  - simpl. by rewrite app_nil_r.
Qed.

Lemma for_each_load_file env directory names docs :
  exists units,
    for_each (load_file env directory) names docs
    = (Ok units, docs ++ omap (kept env directory) names).
Proof.
  revert docs. induction names as [|name names IH]; intros docs.
  - exists []. simpl. by rewrite app_nil_r.
  - simpl. unfold bind at 1. rewrite load_file_run.
    destruct (IH (docs ++ option_list (kept env directory name)))
      as [units Hrun].
    unfold bind at 1. rewrite Hrun. eexists. unfold ret. f_equal.
    rewrite <- app_assoc. f_equal.
    by destruct (kept env directory name).
Qed.

Lemma load_directory_run env directory names docs :
  listdir env directory = Ok names ->
  load_directory env directory docs
  = (Ok tt, docs ++ omap (kept env directory) names).
Proof.
  intros Hls. unfold load_directory. unfold bind at 1. unfold call at 1.
  rewrite Hls. destruct (for_each_load_file env directory names docs)
    as [units Hrun].
  unfold bind. by rewrite Hrun.
Qed.

Lemma load_directory_raise env directory e docs :
  listdir env directory = Raise e ->
  load_directory env directory docs = (Raise e, docs).
Proof.
  intros Hls. unfold load_directory. unfold bind at 1. unfold call at 1.
  by rewrite Hls.
Qed.

Lemma for_each_load_directory env dirs (names : string -> list string) docs :
  Forall (fun d => listdir env d = Ok (names d)) dirs ->
  exists units,
    for_each (load_directory env) dirs docs
    = (Ok units,
       docs ++ flat_map (fun d => omap (kept env d) (names d)) dirs).
Proof.
  intros Hdirs. revert docs.
  induction Hdirs as [|d dirs Hd Hdirs IH]; intros docs.
  - exists []. simpl. by rewrite app_nil_r.
  - simpl. unfold bind at 1. rewrite (load_directory_run _ _ _ _ Hd).
    destruct (IH (docs ++ omap (kept env d) (names d))) as [units Hrun].
    unfold bind at 1. rewrite Hrun. eexists. unfold ret. f_equal.
    by rewrite <- app_assoc.
Qed.

(** X13.  When every directory can be listed, [load_processed_data]
    returns, directory by directory and name by name, the records of the
    files whose name ends in ["_processed.json"], that load, and whose
    [text] or [full_text] is not empty; a file of another name, a file
    that cannot be read or decoded, or a record without text is skipped
    and does not stop the load. *)
Theorem load_processed_data_keeps env dirs (names : string -> list string) :
  Forall (fun d => listdir env d = Ok (names d)) dirs ->
  load_processed_data env dirs
  = Ok (flat_map (fun d => omap (kept env d) (names d)) dirs).
Proof.
  intros Hdirs. unfold load_processed_data.
  destruct (for_each_load_directory env dirs names [] Hdirs) as [units ->].
  done.
Qed.

(** X14.  A directory that cannot be listed is fatal: the exception of
    [os.listdir] leaves [load_processed_data], and the records loaded
    from the directories before it are not returned. *)
Theorem load_processed_data_missing_directory
    env before d after (names : string -> list string) e :
  Forall (fun d => listdir env d = Ok (names d)) before ->
  listdir env d = Raise e ->
  load_processed_data env (before ++ d :: after) = Raise e.
Proof.
  intros Hbefore Hd. unfold load_processed_data.
  assert (H : forall docs,
             exists docs',
               for_each (load_directory env) (before ++ d :: after) docs
               = (Raise e, docs')).
  { induction Hbefore as [|b before Hb Hbefore IH]; intros docs; simpl.
    - unfold bind at 1. rewrite (load_directory_raise _ _ _ _ Hd).
      by eexists.
    - unfold bind at 1. rewrite (load_directory_run _ _ _ _ Hb).
      destruct (IH (docs ++ omap (kept env b) (names b))) as [docs' Hrun].
      unfold bind at 1. rewrite Hrun. by eexists. }
  by destruct (H []) as [docs' ->].
Qed.

Lemma kept_has_text env directory filename data :
  kept env directory filename = Some data ->
  exists t, select_nonempty data = Some t /\ nonempty t = true.
Proof.
  unfold kept. destruct (endswith _ _); [|done].
  destruct (load_json env _) as [d|]; [|done].
  destruct (truthy (d !! "text") || truthy (d !! "full_text")) eqn:Ht; [|done].
  intros [= <-]. unfold select_nonempty, truthy in *.
  destruct (d !! "full_text") as [f|]; destruct (d !! "text") as [t|];
    try destruct f; try destruct t; simpl in *; try done; by eexists.
Qed.

(** The records gathered so far all have a text, whatever happens next. *)
Lemma for_each_load_directory_invariant env dirs docs r docs' :
  Forall (fun d => exists t, select_nonempty d = Some t /\ nonempty t = true)
         docs ->
  for_each (load_directory env) dirs docs = (r, docs') ->
  Forall (fun d => exists t, select_nonempty d = Some t /\ nonempty t = true)
         docs'.
Proof.
  revert docs r docs'. induction dirs as [|d dirs IH]; intros docs r docs' Hdocs.
  - simpl. by intros [= _ <-].
  - simpl. unfold bind at 1.
    destruct (listdir env d) as [names|e] eqn:Hd.
    + rewrite (load_directory_run _ _ _ _ Hd).
      unfold bind at 1.
      destruct (for_each (load_directory env) dirs
                  (docs ++ omap (kept env d) names)) as [r1 docs1] eqn:Hrun.
      assert (Hdocs1 : Forall (fun d => exists t, select_nonempty d = Some t
                                         /\ nonempty t = true) docs1).
      { eapply IH; [|exact Hrun]. apply Forall_app_2; [exact Hdocs|].
        apply Forall_forall. intros data Hin.
        apply list_elem_of_omap in Hin as (name & _ & Hk).
        by apply kept_has_text in Hk. }
      destruct r1; by intros [= _ <-].
    + rewrite (load_directory_raise _ _ _ _ Hd). by intros [= _ <-].
Qed.

(** X15.  Every record that [load_processed_data] returns has a [text] or
    a [full_text] that is not empty, so [split_text_into_chunks] skips
    none of them: its chunks are, record by record, the pieces of the
    selected text. *)
Theorem loaded_records_are_all_chunked env dirs docs (split_text : SplitText) :
  load_processed_data env dirs = Ok docs ->
  Forall (fun d => exists t, select_nonempty d = Some t /\ nonempty t = true)
         docs /\
  split_text_into_chunks split_text docs
  = flat_map
      (fun d =>
         map (fun piece =>
                {| page_content := piece;
                   metadata := delete "text" (delete "full_text" d) |})
             (split_text (get_text_splitter CHUNK_SIZE CHUNK_OVERLAP)
                         (default "" (select_nonempty d))))
      docs.
Proof.
  unfold load_processed_data.
  destruct (for_each (load_directory env) dirs []) as [r docs'] eqn:Hrun.
  destruct r as [units|e]; [|done]. intros [= <-].
  assert (Hall : Forall (fun d => exists t, select_nonempty d = Some t
                                   /\ nonempty t = true) docs').
  { eapply for_each_load_directory_invariant; [constructor | exact Hrun]. }
  split; [exact Hall|].
  rewrite split_text_into_chunks_flat_map.
  clear Hrun. induction Hall as [|d docs (t & Ht & _) Hall IH]; [done|].
  simpl. rewrite IH. f_equal. unfold chunks_of. by rewrite Ht.
Qed.

End LoaderFacts.

(** ** From the acquirers to the loader *)

Section RoundTripFacts.
Import Text Py Py.Notations Utils Loader Shape.

Lemma starts_with_app (p l : list ascii) : starts_with p (p ++ l) = true.
Proof.
  induction p as [|c p IH]; [done|]. simpl.
  by destruct (ascii_dec c c).
Qed.

Lemma endswith_app (suffix s : string) : endswith suffix (s ++ suffix) = true.
Proof.
  unfold endswith. rewrite chars_app, rev_app_distr. apply starts_with_app.
Qed.

Lemma raw_name_is_not_loaded (doc_id : string) :
  endswith "_processed.json" (doc_id ++ "_raw.html") = false.
Proof.
  unfold endswith. rewrite chars_app, rev_app_distr. reflexivity.
Qed.

(** X16.  The JSON file that [extract_pdf_sections] writes is never
    loaded back: the record in it has neither a [text] nor a [full_text]
    entry, so [load_processed_data] skips the file, whatever its name. *)
Theorem pdf_record_is_skipped_by_loader
    env path t ts fs (lenv : Loader.Env) directory filename docs :
  PdfScraper.path_exists env path = true ->
  PdfScraper.pdf_open env path = Ok (map Ok (t :: ts)) ->
  PdfScraper.open_error env (PdfScraper.output_path path) = None ->
  exists r j,
    PdfScraper.extract_pdf_sections env path fs
    = (Ok r, fs ++ [(PdfScraper.output_path path, Files.Json j)]) /\
    j !! "text" = None /\
    j !! "full_text" = None /\
    (load_json lenv (path_join directory filename) = Ok j ->
     kept lenv directory filename = None /\
     load_file lenv directory filename docs = (Ok tt, docs)).
Proof.
  intros Hex Hopen Hwrite.
  rewrite (extract_pdf_sections_result env path t ts fs Hex Hopen), Hwrite.
  eexists. eexists. split; [reflexivity|].
  assert (Htext : delete "full_text"
                    (PdfScraper.populated path (default "" t)
                       (join nl (map (default "") (t :: ts)))) !! "text"
                  = None).
  { rewrite lookup_delete_ne by done.
    unfold PdfScraper.populated, PdfScraper.initial_metadata.
    destruct (nonempty (PdfScraper.found_abstract _)); by simplify_map_eq. }
  split; [exact Htext|]. split; [apply lookup_delete_eq|].
  intros Hload.
  assert (Hkept : kept lenv directory filename = None).
  { unfold kept. destruct (endswith _ _); [|done].
    by rewrite Hload, Htext, lookup_delete_eq. }
  split; [exact Hkept|]. rewrite load_file_run, Hkept. simpl.
  by rewrite app_nil_r.
Qed.

(** X17.  The record of a successful fetch is loaded back from the
    raw-data directory exactly when its text is not empty, and the raw
    markup written beside it is never loaded. *)
Theorem web_record_round_trip
    env url timeout fs r soup (lenv : Loader.Env) docs :
  WebCrawler.requests_get env url timeout WebCrawler.USER_AGENT = Ok r ->
  WebCrawler.http_error r = None ->
  WebCrawler.beautiful_soup env (WebCrawler.text r) = Ok soup ->
  let doc_id :=
    WebCrawler.doc_id_of env url (WebCrawler.page_title env url soup) in
  WebCrawler.open_error env (WebCrawler.raw_path doc_id) = None ->
  WebCrawler.open_error env (WebCrawler.processed_path doc_id) = None ->
  exists record,
    WebCrawler.fetch_page_text env url timeout fs
    = (Ok record,
       fs ++ [ (WebCrawler.raw_path doc_id,
                Files.Markup (WebCrawler.text r));
               (WebCrawler.processed_path doc_id, Files.Json record) ]) /\
    (load_json lenv (WebCrawler.processed_path doc_id) = Ok record ->
     load_file lenv WebCrawler.RAW_DATA_DIR (doc_id ++ "_processed.json") docs
     = (Ok tt,
        if nonempty (WebCrawler.page_text soup) then docs ++ [record]
        else docs)) /\
    load_file lenv WebCrawler.RAW_DATA_DIR (doc_id ++ "_raw.html") docs
    = (Ok tt, docs).
Proof.
  intros Hget Hstatus Hsoup doc_id Hraw Hproc.
  pose proof (fetch_page_text_success env url timeout fs r soup Hget Hstatus
                Hsoup Hraw Hproc) as Hrun.
  cbv zeta in Hrun. fold doc_id in Hrun.
  eexists. split; [exact Hrun|]. split.
  - intros Hload. rewrite load_file_run. unfold kept.
    rewrite endswith_app.
    change (path_join WebCrawler.RAW_DATA_DIR (doc_id ++ "_processed.json"))
      with (WebCrawler.processed_path doc_id).
    rewrite Hload.
    assert (Htext : (Fetched.success_record env url soup) !! "text"
                    = Some (WebCrawler.page_text soup)
                    /\ (Fetched.success_record env url soup) !! "full_text"
                       = None).
    { unfold Fetched.success_record. split; by simplify_map_eq. }
    destruct Htext as [-> ->]. simpl truthy.
    rewrite orb_false_r.
    by destruct (nonempty (WebCrawler.page_text soup)); [|rewrite app_nil_r].
  - rewrite load_file_run. unfold kept. rewrite raw_name_is_not_loaded.
    simpl. by rewrite app_nil_r.
Qed.

(** X18.  [split_text_into_chunks] works record by record: the chunks of
    two lists of records put end to end are the chunks of the first list
    followed by those of the second, and a record with neither a
    [full_text] nor a [text] that is not empty adds nothing. *)
Theorem split_text_into_chunks_app (split_text : SplitText)
    (docs1 docs2 : list (gmap string string)) (doc : gmap string string) :
  split_text_into_chunks split_text (docs1 ++ docs2)
  = split_text_into_chunks split_text docs1
    ++ split_text_into_chunks split_text docs2 /\
  (truthy (doc !! "full_text") = false ->
   truthy (doc !! "text") = false ->
   split_text_into_chunks split_text (docs1 ++ doc :: docs2)
   = split_text_into_chunks split_text (docs1 ++ docs2)).
Proof.
  rewrite !split_text_into_chunks_flat_map, !flat_map_app. split; [done|].
  intros Hf Ht. simpl. unfold chunks_of at 2.
  assert (select_nonempty doc = None) as ->; [|done].
  unfold select_nonempty, truthy in *.
  destruct (doc !! "full_text") as [f|], (doc !! "text") as [x|];
    try destruct f; try destruct x; simpl in *; congruence.
Qed.

End RoundTripFacts.

(** ** More on the vector store *)

Section MoreStoreFacts.
Import Py Py.Notations Utils VectorStore.

(** X19.  When the collection has entries and adding the chunks raises
    after the wipe has gone through, [create_vector_store] raises that
    exception and leaves the index empty, in the open collection and as
    persisted: the earlier entries are lost. *)
Theorem create_vector_store_failed_add_loses_index env chunks db e :
  open_error env db = None ->
  get_error env db = None ->
  collection db <> [] ->
  (forall ids db', delete_error env ids db' = None) ->
  (forall db', persist_error env db' = None) ->
  (forall db', add_error env chunks db' = Some e) ->
  exists db',
    create_vector_store env chunks db = (Raise e, db') /\
    collection db' = [] /\
    persisted db' = [].
Proof.
  intros Hopen Hget Hne Hdel Hper Hadd.
  unfold create_vector_store, open_store. unfold bind at 1.
  rewrite (guarded_ok _ _ Hopen). unfold bind at 1.
  unfold try_except, wipe, vdb_get. unfold bind at 1. unfold bind at 1.
  rewrite (guarded_ok _ _ Hget). unfold bind at 1, get at 1, ret at 1.
  remember (map entry_id (collection db)) as ids eqn:Hids.
  destruct ids as [|i ids]; [by destruct (collection db)|].
  cbv beta iota. unfold vdb_delete. unfold bind at 1. unfold bind at 1.
  rewrite (guarded_ok _ _ (Hdel _ db)). unfold modify at 1.
  unfold vdb_persist at 1. unfold bind at 1.
  rewrite (guarded_ok _ _ (Hper _)). unfold modify at 1.
  unfold vdb_add_documents. unfold bind at 1. unfold bind at 1.
  rewrite (guarded_raise _ _ e (Hadd _)).
  eexists. split; [reflexivity|]. simpl.
  rewrite Hids. by rewrite delete_all.
Qed.

End MoreStoreFacts.

(** ** More on the answer chain and the query page *)

Section MoreChainFacts.
Import Text Py Py.Notations Utils VectorStore RagPipeline StreamlitApp.

(** X20.  [build_rag_chain] initialises the language model last: in every
    run, the model is initialised only if the index directory exists and
    the embedding function and the store have been opened without error;
    and the chain is returned exactly when, besides, neither the model
    nor the chain constructor raises.  The chain returned retrieves 5
    documents, uses the model of the environment and returns the source
    documents. *)
Theorem build_rag_chain_initialises_model_last (env : RagPipeline.Env) :
  let built := build_rag_chain env [] in
  (forall m, In (ChatGroq m) (snd built) ->
     chroma_db_exists env = true /\ embedding_error env = None /\
     chroma_error env = None /\ m = GROQ_MODEL env) /\
  ((exists chain, fst built = Ok chain) <->
   chroma_db_exists env = true /\ embedding_error env = None /\
   chroma_error env = None /\ llm_error env = None /\ chain_error env = None) /\
  (forall chain, fst built = Ok chain ->
     retriever_k chain = 5 /\ model_name chain = GROQ_MODEL env /\
     return_source_documents chain = true /\
     snd built = [ GetEmbeddingFunction;
                   OpenChroma CHROMA_DB_PATH CHROMA_COLLECTION_NAME;
                   AsRetriever 5; ChatGroq (GROQ_MODEL env); FromChainType ]).
Proof.
  destruct env as [model db ee ce le he]. simpl.
  unfold build_rag_chain, bind, does, check, modify, ret, raise. simpl.
  destruct ee as [e1|], db, ce as [e2|], le as [e3|], he as [e4|]; simpl;
    (split_and!;
     [ intros m Hin; repeat (destruct Hin as [Hin|Hin]; try discriminate Hin);
       try (injection Hin as <-); try done
     | split; [intros [chain [=]] | intros (? & ? & ? & ? & ?)];
       try done; try by eexists
     | intros chain [= <-]; done || idtac ]).
Qed.

End MoreChainFacts.

Section MorePageFacts.
Import Text Py Py.Notations Utils VectorStore RagPipeline StreamlitApp.


(** X22.  The chat never raises.  Without a chain the script stops and
    nothing is asked; with a chain and a prompt, the chain is invoked
    once, and an exception of the query is shown as an error message
    after which the script goes on. *)
Theorem chat_reports_query_errors
    (env : StreamlitApp.Env) (chain : RetrievalQA) (p : string) (t : trace) :
  (forall prompt, chat env None prompt t = (Ok tt, t ++ [StStop])) /\
  (chat env (Some chain) None t = (Ok tt, t)) /\
  (nonempty p = true ->
   forall e,
     invoke env p = Raise e ->
     chat env (Some chain) (Some p) t
     = (Ok tt,
        t ++ [StMarkdown p; Invoke p;
              StError ("An error occurred during RAG query: " ++ str e)])) /\
  (nonempty p = true ->
   forall answer docs,
     invoke env p = Ok (answer, docs) ->
     exists shown,
       chat env (Some chain) (Some p) t
       = (Ok tt, t ++ [StMarkdown p; Invoke p; StMarkdown shown])).
Proof.
  split_and!; [done..| |].
  - intros Hp e He. unfold chat, truthy. rewrite Hp. simpl default.
    unfold try_except, bind, does, modify, call. rewrite He. simpl.
    by rewrite <- !app_assoc.
  - intros Hp answer docs Hok. unfold chat, truthy. rewrite Hp.
    simpl default.
    unfold try_except, bind, does, modify, call. rewrite Hok. simpl.
    eexists. by rewrite <- !app_assoc.
Qed.

Lemma size_fold_citations (docs : list Document)
    (acc : gset (string * string * string)) :
  size (fold_left (fun acc doc => acc ∪ {[ citation doc ]}) docs acc)
  <= size acc + length docs.
Proof.
  revert acc. induction docs as [|d docs IH]; intros acc; simpl; [lia|].
  etransitivity; [apply IH|].
  rewrite size_union_alt.
  assert (size ({[citation d]} ∖ acc : gset _) <= 1).
  { rewrite <- (size_singleton (citation d) (C := gset _)).
    apply subseteq_size. intros x Hx.
    by apply elem_of_difference in Hx as [Hx _]. }
  lia.
Qed.

(** The citations in the set are those of the documents, each once. *)
Lemma elements_unique_sources (docs : list Document) :
  elements (unique_sources docs) ≡ₚ remove_dups (map citation docs).
Proof.
  apply NoDup_Permutation; [apply NoDup_elements | apply NoDup_remove_dups|].
  intros c.
  rewrite elem_of_elements, elem_of_unique_sources, elem_of_remove_dups.
  rewrite list_elem_of_In, in_map_iff. split.
  - intros (d & Hd & ->). by exists d.
  - intros (d & <- & Hd). by exists d.
Qed.

(** X23.  The source list has one line for each distinct triple of
    title, source and url-or-path among the retrieved documents, in some
    order, and no other line: documents with the same triple share one
    line wherever they stand among the others (chunks of one document
    are cited once), so the list has no more lines than there are
    retrieved documents, and a single line when all have the same
    triple. *)
Theorem source_lines_deduplicated (d : Document) (docs : list Document) :
  length (source_lines docs) <= length docs /\
  (Forall (fun d' => citation d' = citation d) docs ->
   source_lines (d :: docs) = [source_line (citation d)]) /\
  source_lines docs ≡ₚ map source_line (remove_dups (map citation docs)) /\
  NoDup (elements (unique_sources docs)) /\
  length (source_lines docs) = length (remove_dups (map citation docs)) /\
  (forall d1 d2 before between after,
     citation d1 = citation d2 ->
     source_lines (before ++ d1 :: between ++ d2 :: after)
     ≡ₚ source_lines (before ++ d1 :: between ++ after)).
Proof.
  split_and!.
  - unfold source_lines, unique_sources. rewrite length_map.
    change (length (elements ?X)) with (size X).
    etransitivity; [apply size_fold_citations|]. by rewrite size_empty.
  - intros Hsame. unfold source_lines.
    assert (unique_sources (d :: docs) = {[ citation d ]}) as ->.
    { apply set_eq. intros c. rewrite elem_of_unique_sources, elem_of_singleton.
      split.
      - intros (d' & [<-|Hin] & ->); [done|].
        rewrite Forall_forall in Hsame. by apply Hsame, list_elem_of_In.
      - intros ->. exists d. by split; [left|]. }
    by rewrite elements_singleton.
  - unfold source_lines. apply Permutation_map, elements_unique_sources.
  - apply NoDup_elements.
  - unfold source_lines. rewrite length_map.
    apply Permutation_length, elements_unique_sources.
  - intros d1 d2 before between after Hsame. unfold source_lines.
    assert (unique_sources (before ++ d1 :: between ++ d2 :: after)
            = unique_sources (before ++ d1 :: between ++ after)) as ->; [|done].
    apply set_eq. intros c. rewrite !elem_of_unique_sources.
    assert (Hin : forall x : Document,
               In x (before ++ d1 :: between ++ d2 :: after)
               <-> x = d2 \/ In x (before ++ d1 :: between ++ after)).
    { intros x. rewrite !in_app_iff. simpl. rewrite !in_app_iff. simpl.
      intuition congruence. }
    split.
    + intros (x & Hx & ->). apply Hin in Hx as [-> | Hx].
      * exists d1. split; [|done]. rewrite in_app_iff. right. by left.
      * by exists x.
    + intros (x & Hx & ->). exists x. split; [|done]. apply Hin. by right.
Qed.

End MorePageFacts.

(** ** The evaluation suite *)

Section EvaluationFacts.
Import Text Py Py.Notations Utils RagPipeline Evaluation Shape.

Lemma snippet_shape (result : string) :
  len (snippet result) <= 153 /\ lacks (ascii_of_nat 10) (snippet result).
Proof.
  unfold snippet. split.
  - rewrite len_app. change (len "...") with 3.
    pose proof (len_replace_char (ascii_of_nat 10) " " (prefix 150 result))
      as Hlen.
    change (String (ascii_of_nat 10) "") with nl in Hlen. rewrite Hlen.
    pose proof (len_prefix 150 result). lia.
  - apply lacks_app; [|by repeat constructor].
    by apply (lacks_replace_char (ascii_of_nat 10) " ").
Qed.

(** What a turn of the loop that returns has done. *)
Lemma evaluate_returns env i test_case t row t' :
  evaluate env i test_case t = (Ok row, t') ->
  ID row = i + 1 /\
  test_case !! "query" = Some (Query row) /\
  (exists result, LLM_Response_Snippet row = snippet result) /\
  t' = t ++ [Invoke (Query row)].
Proof.
  unfold evaluate, item, run_rag_query.
  destruct (test_case !! "query") as [query|]; [|done].
  unfold bind at 1. unfold ret at 1. unfold bind at 1. unfold bind at 1.
  unfold does at 1, modify at 1. unfold call at 1.
  destruct (invoke env query) as [response|e]; [|done].
  unfold bind at 1.
  destruct (test_case !! "expected_fact") as [expected|]; [|done].
  unfold ret. intros [= <- <-]. simpl. split_and!; try done. by eexists.
Qed.

Lemma evaluate_from_returns env test_set i t rows t' :
  evaluate_from env i test_set t = (Ok rows, t') ->
  map ID rows = seq (i + 1) (length test_set) /\
  Forall2 (fun test_case row => test_case !! "query" = Some (Query row))
          test_set rows /\
  Forall (fun row => exists result, LLM_Response_Snippet row = snippet result)
         rows /\
  t' = t ++ map (fun row => Invoke (Query row)) rows.
Proof.
  revert i t rows t'.
  induction test_set as [|test_case rest IH]; intros i t rows t'; simpl.
  - intros [= <- <-]. by rewrite app_nil_r.
  - unfold bind at 1.
    destruct (evaluate env i test_case t) as [[row|e] t1] eqn:Hrow; [|done].
    unfold bind at 1.
    destruct (evaluate_from env (S i) rest t1) as [[rows1|e] t2] eqn:Hrest;
      [|done].
    unfold ret. intros [= <- <-].
    destruct (evaluate_returns _ _ _ _ _ _ Hrow) as (Hid & Hq & Hs & ->).
    destruct (IH _ _ _ _ Hrest) as (Hids & Hqs & Hss & ->).
    simpl. rewrite Hid, Hids. split_and!.
    + by replace (S i + 1) with (S (i + 1)) by lia.
    + by constructor.
    + by constructor.
    + by rewrite <- app_assoc.
Qed.

(** X24.  When [run_evaluation_suite] returns, its table has one row per
    test case, numbered from 1 in the order of the test set, with the
    query of its test case; the chain has been invoked once per row, in
    that order; and every answer snippet is at most 153 characters long
    and has no newline. *)
Theorem run_evaluation_suite_table env test_set t rows t' :
  run_evaluation_suite env test_set t = (Ok rows, t') ->
  length rows = length test_set /\
  map ID rows = seq 1 (length test_set) /\
  Forall2 (fun test_case row => test_case !! "query" = Some (Query row))
          test_set rows /\
  t' = t ++ map (fun row => Invoke (Query row)) rows /\
  Forall (fun row =>
            len (LLM_Response_Snippet row) <= 153 /\
            lacks (ascii_of_nat 10) (LLM_Response_Snippet row))
         rows.
Proof.
  intros Hrun. unfold run_evaluation_suite in Hrun.
  destruct (evaluate_from_returns _ _ _ _ _ _ Hrun) as (Hids & Hqs & Hss & Ht).
  split_and!; try done.
  - by rewrite <- (length_map ID), Hids, length_seq.
  - eapply Forall_impl; [exact Hss|]. intros row [result ->].
    apply snippet_shape.
Qed.

Lemma evaluate_answered env i test_case t :
  answered env test_case ->
  exists row t', evaluate env i test_case t = (Ok row, t').
Proof.
  intros (query & expected & response & Hq & Hx & Hr).
  unfold evaluate, item, run_rag_query, bind, does, modify, call, ret.
  rewrite Hq, Hr, Hx. by eexists _, _.
Qed.

(** X25.  The suite has no handler of its own: when the chain raises on
    the query of a test case, the cases before it having been answered,
    [run_evaluation_suite] raises that exception and no table is
    returned. *)
Theorem run_evaluation_suite_aborts
    env before test_case after query e t :
  Forall (answered env) before ->
  test_case !! "query" = Some query ->
  invoke env query = Raise e ->
  fst (run_evaluation_suite env (before ++ test_case :: after) t) = Raise e.
Proof.
  intros Hbefore Hq He. unfold run_evaluation_suite.
  generalize 0 as i. revert t.
  induction Hbefore as [|b before Hb Hbefore IH]; intros t i; simpl.
  - unfold bind at 1. unfold evaluate, item, run_rag_query.
    rewrite Hq. unfold bind, does, modify, call, ret. by rewrite He.
  - unfold bind at 1.
    destruct (evaluate_answered env i b t Hb) as (row & t1 & ->).
    unfold bind at 1. specialize (IH t1 (S i)).
    by destruct (evaluate_from env (S i) (before ++ test_case :: after) t1)
      as [[rows|e'] t2]; simpl in *; [|congruence].
Qed.

End EvaluationFacts.

(** ** The properties at concrete inputs *)

Lemma extract_pdf_sections_persists_metadata_only_witness :
  exists r,
    PdfScraper.extract_pdf_sections
      (Examples.one_page Examples.survey) "data/papers/My Survey.pdf" []
    = (Py.Ok r,
       [("data/papers/processed/my_survey_processed.json",
         Files.Json (delete "full_text" r))]) /\
    r !! "error" = None.
Proof.
  destruct (extract_pdf_sections_persists_metadata_only
              (Examples.one_page Examples.survey) "data/papers/My Survey.pdf"
              (Some Examples.survey) [] [] eq_refl eq_refl eq_refl)
    as (r & Hrun & Herr & _).
  exists r. split; [exact Hrun | exact Herr].
Defined.

Lemma extract_pdf_sections_write_failure_witness :
  exists r,
    PdfScraper.extract_pdf_sections
      (Cases.read_only Examples.survey) "data/papers/survey.pdf" []
    = (Py.Ok r, []) /\
    r !! "error" = Some "Error processing PDF: Permission denied" /\
    r !! "title" = Some "A Survey".
Proof.
  destruct (extract_pdf_sections_write_failure
              (Cases.read_only Examples.survey) "data/papers/survey.pdf"
              (Some Examples.survey) [] []
              (Py.OtherException "Permission denied")
              eq_refl eq_refl eq_refl)
    as (r & Hrun & Herr & Ht & _).
  exists r. split; [exact Hrun|]. split; [exact Herr | exact Ht].
Defined.

Lemma extract_pdf_sections_abstract_nonempty_witness :
  exists r a,
    fst (PdfScraper.extract_pdf_sections
           (Examples.one_page Cases.plain) "notes.pdf" []) = Py.Ok r /\
    r !! "abstract" = Some a /\
    Text.nonempty a = true.
Proof.
  apply (extract_pdf_sections_abstract_nonempty
           (Examples.one_page Cases.plain) "notes.pdf" (Some Cases.plain) [] []
           eq_refl eq_refl).
  vm_compute. discriminate.
Defined.

Lemma plain_has_no_abstract :
  ~ Shape.occurs "abstract" (Text.lower Cases.plain).
Proof.
  intros H. apply occurs_has_chars in H.
  inversion H as [|c1 l1 _ H1]. inversion H1 as [|c2 l2 Hb _].
  vm_compute in Hb. intuition discriminate.
Defined.

Lemma extract_pdf_sections_no_abstract_word_witness :
  exists r,
    fst (PdfScraper.extract_pdf_sections
           (Examples.one_page Cases.plain) "notes.pdf" []) = Py.Ok r /\
    r !! "abstract" = Some "Notes Plain text only.".
Proof.
  apply (extract_pdf_sections_no_abstract_word
           (Examples.one_page Cases.plain) "notes.pdf" (Some Cases.plain) [] []
           eq_refl eq_refl plain_has_no_abstract).
Defined.

Lemma extract_pdf_sections_fallback_words_witness :
  exists r a,
    fst (PdfScraper.extract_pdf_sections
           (Examples.one_page Cases.plain) "notes.pdf" []) = Py.Ok r /\
    r !! "abstract" = Some a /\
    Text.split a = ["Notes"; "Plain"; "text"; "only."] /\
    length (Text.split a) <= 150.
Proof.
  apply (extract_pdf_sections_fallback_words
           (Examples.one_page Cases.plain) "notes.pdf" (Some Cases.plain) [] []
           eq_refl eq_refl).
  vm_compute. reflexivity.
Defined.

Lemma extract_pdf_sections_full_text_normalised_witness :
  exists r f,
    fst (PdfScraper.extract_pdf_sections
           (Examples.one_page Cases.plain) "notes.pdf" []) = Py.Ok r /\
    r !! "full_text" = Some f /\
    Text.split f = ["Notes"; "Plain"; "text"; "only."] /\
    Text.normalize_ws f = f.
Proof.
  destruct (extract_pdf_sections_full_text_normalised
              (Examples.one_page Cases.plain) "notes.pdf" (Some Cases.plain)
              [] [] eq_refl eq_refl)
    as (r & f & Hr & Hf & Hs & Hn & _).
  exists r, f. split; [exact Hr|]. split; [exact Hf|].
  split; [exact Hs | exact Hn].
Defined.

Lemma extract_pdf_sections_title_one_line_witness :
  exists r title,
    fst (PdfScraper.extract_pdf_sections
           (Examples.one_page Examples.survey) "survey.pdf" []) = Py.Ok r /\
    r !! "title" = Some title /\
    Text.strip title = title.
Proof.
  destruct (extract_pdf_sections_title_one_line
              (Examples.one_page Examples.survey) "survey.pdf"
              (Some Examples.survey) [] [] eq_refl eq_refl)
    as (r & title & Hr & Ht & _ & Hs).
  exists r, title. split; [exact Hr|]. split; [exact Ht | exact Hs].
Defined.

Lemma fetch_page_text_partial_write_witness :
  exists record,
    WebCrawler.fetch_page_text Cases.no_json_writes "https://example.com/a" 15 []
    = (Py.Ok record,
       [("data/raw_web/rag_notes_-1234567_raw.html",
         Files.Markup "<html>...</html>")]) /\
    record !! "title" = Some "ERROR" /\
    record !! "text" = Some "Unexpected error: No space left on device".
Proof.
  apply (fetch_page_text_partial_write Cases.no_json_writes
           "https://example.com/a" 15 [] _ _
           (Py.OtherException "No space left on device")
           eq_refl eq_refl eq_refl eq_refl eq_refl).
Defined.

Lemma online_hash_has_no_slash :
  Shape.lacks "/" (WebCrawler.hash_str Examples.online "https://example.com/a").
Proof.
  unfold Shape.lacks. simpl.
  repeat (constructor; [discriminate|]). constructor.
Defined.

Lemma doc_id_names_files_in_raw_dir_witness :
  Shape.len (WebCrawler.doc_id_of Examples.online "https://example.com/a"
               "A / B") <= 59 /\
  WebCrawler.raw_path
    (WebCrawler.doc_id_of Examples.online "https://example.com/a" "A / B")
  = "data/raw_web/a_-_b_-1234567_raw.html".
Proof.
  destruct (doc_id_names_files_in_raw_dir Examples.online
              "https://example.com/a" "A / B" online_hash_has_no_slash)
    as (Hlen & _ & Hraw & _).
  split; [exact Hlen | exact Hraw].
Defined.

Lemma fetch_page_text_success_record_witness :
  exists record x,
    fst (WebCrawler.fetch_page_text Examples.online "https://example.com/a" 15 [])
    = Py.Ok record /\
    record !! "text" = Some x /\
    Text.normalize_ws x = x.
Proof.
  destruct (fetch_page_text_success_record Examples.online
              "https://example.com/a" 15 [] _ _
              eq_refl eq_refl eq_refl eq_refl eq_refl)
    as (record & x & Hr & _ & _ & Hx & Hn & _).
  exists record, x. split; [exact Hr|]. split; [exact Hx | exact Hn].
Defined.

Lemma disk_listing :
  Forall (fun d => Loader.listdir Cases.disk d = Py.Ok (Cases.listing d))
         Loader.DATA_DIRS.
Proof. repeat constructor. Defined.

Lemma disk_loads_the_page :
  Loader.load_processed_data Cases.disk Loader.DATA_DIRS
  = Py.Ok [Examples.web_record].
Proof. vm_compute. reflexivity. Defined.

Lemma load_processed_data_keeps_witness :
  Loader.load_processed_data Cases.disk Loader.DATA_DIRS
  = Py.Ok [Examples.web_record].
Proof.
  apply (load_processed_data_keeps Cases.disk Loader.DATA_DIRS Cases.listing
           disk_listing).
Defined.

Lemma load_processed_data_missing_directory_witness :
  Loader.load_processed_data Cases.disk
    ["data/raw_web"; "data/missing"; "data/papers/processed"]
  = Py.Raise (Py.FileNotFoundError "data/missing").
Proof.
  apply (load_processed_data_missing_directory Cases.disk
           ["data/raw_web"] "data/missing" ["data/papers/processed"]
           Cases.listing (Py.FileNotFoundError "data/missing")).
  - repeat constructor.
  - reflexivity.
Defined.

Lemma loaded_records_are_all_chunked_witness :
  map Utils.page_content
      (Utils.split_text_into_chunks Examples.by_words [Examples.web_record])
  = ["RAG"; "combines"; "retrieval"; "with"; "generation."].
Proof.
  destruct (loaded_records_are_all_chunked Cases.disk Loader.DATA_DIRS
              [Examples.web_record] Examples.by_words
              disk_loads_the_page)
    as [_ Hchunks].
  rewrite Hchunks. vm_compute. reflexivity.
Defined.

Lemma pdf_record_is_skipped_by_loader_witness :
  exists r j,
    PdfScraper.extract_pdf_sections
      (Examples.one_page Examples.survey) "data/papers/survey.pdf" []
    = (Py.Ok r, [("data/papers/processed/survey_processed.json", Files.Json j)])
    /\ j !! "text" = None /\ j !! "full_text" = None.
Proof.
  destruct (pdf_record_is_skipped_by_loader
              (Examples.one_page Examples.survey) "data/papers/survey.pdf"
              (Some Examples.survey) [] [] Cases.disk
              "data/papers/processed" "survey_processed.json" []
              eq_refl eq_refl eq_refl)
    as (r & j & Hrun & Ht & Hf & _).
  exists r, j. split; [exact Hrun|]. split; [exact Ht | exact Hf].
Defined.

Lemma web_record_round_trip_witness :
  exists record,
    fst (WebCrawler.fetch_page_text Examples.online "https://example.com/a" 15 [])
    = Py.Ok record /\
    Loader.load_file Cases.disk "data/raw_web"
      "rag_notes_-1234567_raw.html" []
    = (Py.Ok tt, []).
Proof.
  destruct (web_record_round_trip Examples.online "https://example.com/a" 15 []
              _ _ Cases.disk [] eq_refl eq_refl eq_refl eq_refl eq_refl)
    as (record & Hrun & _ & Hraw).
  exists record. split; [by rewrite Hrun | exact Hraw].
Defined.

Lemma split_text_into_chunks_app_witness :
  Utils.split_text_into_chunks Examples.by_words
    ([Examples.web_record] ++ Cases.pdf_json :: [Examples.web_record])
  = Utils.split_text_into_chunks Examples.by_words
      ([Examples.web_record] ++ [Examples.web_record]).
Proof.
  destruct (split_text_into_chunks_app Examples.by_words
              [Examples.web_record] [Examples.web_record] Cases.pdf_json)
    as [_ H].
  apply H; reflexivity.
Defined.

Lemma create_vector_store_failed_add_loses_index_witness :
  exists db',
    VectorStore.create_vector_store Cases.add_raises Examples.two_chunks
      Examples.indexed
    = (Py.Raise (Py.OtherException "embedding failed"), db') /\
    VectorStore.collection db' = [] /\
    VectorStore.persisted db' = [].
Proof.
  apply (create_vector_store_failed_add_loses_index Cases.add_raises
           Examples.two_chunks Examples.indexed
           (Py.OtherException "embedding failed")); try reflexivity.
  discriminate.
Defined.

Lemma build_rag_chain_initialises_model_last_witness :
  exists chain, fst (RagPipeline.build_rag_chain Cases.ready []) = Py.Ok chain.
Proof.
  destruct (build_rag_chain_initialises_model_last Cases.ready)
    as (_ & [_ H] & _).
  apply H. by repeat split.
Defined.


Lemma chat_reports_query_errors_witness :
  StreamlitApp.chat Cases.rate_limited (Some Cases.chain)
    (Some "What does RAG combine?") []
  = (Py.Ok tt,
     [ RagPipeline.StMarkdown "What does RAG combine?";
       RagPipeline.Invoke "What does RAG combine?";
       RagPipeline.StError "An error occurred during RAG query: rate limit" ]).
Proof.
  destruct (chat_reports_query_errors Cases.rate_limited Cases.chain
              "What does RAG combine?" [])
    as (_ & _ & H & _).
  apply (H eq_refl (Py.OtherException "rate limit") eq_refl).
Defined.

Lemma source_lines_deduplicated_witness :
  length (StreamlitApp.source_lines Examples.two_chunks) = 1.
Proof.
  destruct (source_lines_deduplicated
              {| Utils.page_content := "RAG combines retrieval";
                 Utils.metadata := delete "text" Examples.web_record |}
              [ {| Utils.page_content := "with generation.";
                   Utils.metadata := delete "text" Examples.web_record |} ])
    as (_ & H & _).
  unfold Examples.two_chunks. rewrite H; [reflexivity|].
  by repeat constructor.
Defined.

Lemma run_evaluation_suite_table_witness :
  exists rows t',
    Evaluation.run_evaluation_suite Cases.moody
      [ Cases.test_case "What is RAG?" "retrieval and generation";
        Cases.test_case "Who wrote it?" "the authors" ] []
    = (Py.Ok rows, t') /\
    map Evaluation.ID rows = [1; 2] /\
    t' = [RagPipeline.Invoke "What is RAG?"; RagPipeline.Invoke "Who wrote it?"].
Proof.
  eexists. eexists. split; [vm_compute; reflexivity|].
  match goal with
  | |- map Evaluation.ID ?rows = _ /\ ?t' = _ =>
      destruct (run_evaluation_suite_table Cases.moody
                  [ Cases.test_case "What is RAG?" "retrieval and generation";
                    Cases.test_case "Who wrote it?" "the authors" ]
                  [] rows t' ltac:(vm_compute; reflexivity))
        as (_ & Hids & _ & Ht & _)
  end.
  split; [exact Hids | exact Ht].
Defined.

Lemma run_evaluation_suite_aborts_witness :
  fst (Evaluation.run_evaluation_suite Cases.moody
         [ Cases.test_case "What is RAG?" "retrieval and generation";
           Cases.test_case "bad" "nothing";
           Cases.test_case "Who wrote it?" "the authors" ] [])
  = Py.Raise (Py.OtherException "rate limit").
Proof.
  apply (run_evaluation_suite_aborts Cases.moody
           [Cases.test_case "What is RAG?" "retrieval and generation"]
           (Cases.test_case "bad" "nothing")
           [Cases.test_case "Who wrote it?" "the authors"]
           "bad" (Py.OtherException "rate limit") []).
  - constructor; [|constructor].
    exists "What is RAG?", "retrieval and generation".
    eexists. split; [reflexivity|]. split; reflexivity.
  - reflexivity.
  - reflexivity.
Defined.
